(** * jaxmp.extras.solve_ik: problem assembly and solve orchestration

    A shallow embedding of [src/jaxmp/extras/solve_ik.py].  The two entry
    points, [solve_ik] and [solve_ik_with_coll], assemble a list of cost
    factors and a list of variables, hand them to the least-squares engine
    ([jaxls.FactorGraph.make(...).solve(...)]) and read the result back.

    Float literals of the source are carried as the rationals they denote
    ([1e-5] is [1 # 100000]); the entry points themselves perform no
    arithmetic on them, they only pass them on.  Where residuals are
    evaluated, the rationals are rounded to IEEE floats and the arithmetic
    is that of the floats. *)

From Stdlib Require Import List ZArith QArith SpecFloat String Bool Lia.
Import ListNotations.
Open Scope Z_scope.

(** ** Data model *)

(** [jnp.ndarray] of floats, one axis. *)
Definition Array := list Q.

(** [jaxlie.SE3]: the [wxyz_xyz] parameter vector. *)
Record SE3 : Type := MkSE3 { wxyz_xyz : list Q }.

(** [jaxlie.SE3.identity()]: unit quaternion, zero translation. *)
Definition SE3_identity : SE3 :=
  MkSE3 [1%Q; 0%Q; 0%Q; 0%Q; 0%Q; 0%Q; 0%Q].

(** A [jaxls.Var] subclass: the class object, with the default value its
    instances take when no value is given for them. *)
Record VarClass (T : Type) : Type := MkVarClass
  { cls_name : string;
    cls_default : T }.
Arguments MkVarClass {T} _ _.
Arguments cls_name {T} _.
Arguments cls_default {T} _.

(** An instance [Cls(id)] of a variable class. *)
Record Var (T : Type) : Type := MkVar
  { var_cls : VarClass T;
    var_id : Z }.
Arguments MkVar {T} _ _.
Arguments var_cls {T} _.
Arguments var_id {T} _.

(** The lists [joint_vars] and [joint_var_values] hold joint variables and
    base-pose variables side by side. *)
Inductive AnyVar : Type :=
| JointV (v : Var Array)
| PoseV (v : Var SE3).

Inductive Value : Type :=
| ArrayVal (a : Array)
| SE3Val (T : SE3).

(** An element of the list given to [jaxls.VarValues.make]: a bare
    variable, or [var.with_value(x)]. *)
Inductive VarOrValue : Type :=
| Bare (v : AnyVar)
| with_value (v : Var Array) (x : Array).

Definition default_value (v : AnyVar) : Value :=
  match v with
  | JointV j => ArrayVal (cls_default (var_cls j))
  | PoseV p => SE3Val (cls_default (var_cls p))
  end.

(** [jaxls.VarValues.make]: a bare variable is given the default value of
    its class, a [with_value] pair its own value. *)
Definition VarValues_make (l : list VarOrValue) : list (AnyVar * Value) :=
  map (fun e => match e with
                | Bare v => (v, default_value v)
                | with_value v x => (JointV v, ArrayVal x)
                end) l.

(** [JaxKinTree]: the fields this module and the factors read.
    [num_joints] counts the joints of the tree, which target indices range
    over; [num_actuated_joints] is the length of a configuration. *)
Record JaxKinTree : Type := MkKin
  { num_joints : nat;
    num_actuated_joints : nat;
    limits_lower : Array;
    limits_upper : Array;
    joint_vel_limit : Array }.

(** The [solver_type] literal. *)
Inductive LinearSolver : Type :=
| cholmod
| conjugate_gradient
| dense_cholesky.

(** [jaxls.TerminationConfig], the fields the entry points set. *)
Record TerminationConfig : Type := MkTermination
  { gradient_tolerance : Q;
    parameter_tolerance : Q;
    max_iterations : Z }.

(** [jaxls.TrustRegionConfig]; [None] is a field left at the engine's
    default. *)
Record TrustRegionConfig : Type := MkTrustRegion
  { lambda_initial : option Q }.

(** [[x] * n] *)
Definition replicate (x : Q) (n : nat) : Array := repeat x n.

(** ** Arguments of the entry points

    Field names are the parameter names of the source.  [pose_var_idx] is
    an [option] because the source tests it against [None]. *)

Module SolveIk.
Record args : Type := Mk
  { kin : JaxKinTree;
    target_pose : list SE3;
    target_joint_indices : list Z;
    initial_pose : Array;
    JointVar : VarClass Array;
    ik_weight : Array;
    joint_var_idx : Z;
    rest_weight : Q;
    limit_weight : Q;
    joint_vel_weight : Q;
    dt : Q;
    use_manipulability : bool;
    manipulability_weight : Q;
    solver_type : LinearSolver;
    ConstrainedSE3Var : option (VarClass SE3);
    pose_var_idx : option Z;
    max_iterations : Z }.

(** A call that gives the positional arguments only: every keyword takes
    the default of the signature. *)
Definition with_defaults
  (kin : JaxKinTree) (target_pose : list SE3) (target_joint_indices : list Z)
  (initial_pose : Array) (JointVar : VarClass Array) (ik_weight : Array)
  : args :=
  {| kin := kin;
     target_pose := target_pose;
     target_joint_indices := target_joint_indices;
     initial_pose := initial_pose;
     JointVar := JointVar;
     ik_weight := ik_weight;
     joint_var_idx := 0;
     rest_weight := 1 # 1000;
     limit_weight := 100;
     joint_vel_weight := 0;
     dt := 1 # 100;
     use_manipulability := false;
     manipulability_weight := 1 # 1000;
     solver_type := conjugate_gradient;
     ConstrainedSE3Var := None;
     pose_var_idx := Some 0;
     max_iterations := 50 |}.
End SolveIk.

Module SolveIkWithColl.
Record args (RobotColl CollGeom : Type) : Type := Mk
  { kin : JaxKinTree;
    target_joint_indices : list Z;
    target_poses : list SE3;
    robot_coll : RobotColl;
    world_coll : list CollGeom;
    initial_pose : Array;
    pos_weight : Q;
    rot_weight : Q;
    rest_weight : Q;
    limit_weight : Q;
    self_coll_weight : Q;
    world_coll_weight : Q }.
Arguments Mk {RobotColl CollGeom}.
Arguments kin {RobotColl CollGeom} _.
Arguments target_joint_indices {RobotColl CollGeom} _.
Arguments target_poses {RobotColl CollGeom} _.
Arguments robot_coll {RobotColl CollGeom} _.
Arguments world_coll {RobotColl CollGeom} _.
Arguments initial_pose {RobotColl CollGeom} _.
Arguments pos_weight {RobotColl CollGeom} _.
Arguments rot_weight {RobotColl CollGeom} _.
Arguments rest_weight {RobotColl CollGeom} _.
Arguments limit_weight {RobotColl CollGeom} _.
Arguments self_coll_weight {RobotColl CollGeom} _.
Arguments world_coll_weight {RobotColl CollGeom} _.

Definition with_defaults {RobotColl CollGeom : Type}
  (kin : JaxKinTree) (target_joint_indices : list Z) (target_poses : list SE3)
  (robot_coll : RobotColl) (world_coll : list CollGeom) (initial_pose : Array)
  : args RobotColl CollGeom :=
  {| kin := kin;
     target_joint_indices := target_joint_indices;
     target_poses := target_poses;
     robot_coll := robot_coll;
     world_coll := world_coll;
     initial_pose := initial_pose;
     pos_weight := 5;
     rot_weight := 1;
     rest_weight := 1 # 1000;
     limit_weight := 100;
     self_coll_weight := 5;
     world_coll_weight := 10 |}.
End SolveIkWithColl.

(** ** The joint variable class of the collision-aware entry point *)

Module RobotFactors.

(** Modelled from the spec: [RobotFactors.get_var_class], the factory of
    the joint variable class (jaxmp/robot_factors.py is missing).  The
    design initialises the joint variable to the caller-supplied initial
    guess; the collision-aware entry point gives that guess to this
    factory and to nothing else that sets a value, so the class it
    returns has its second argument as default value. *)
Definition get_var_class
  (kin : JaxKinTree) (default_val : Array) : VarClass Array :=
  MkVarClass "JointVar" default_val.

End RobotFactors.

(** ** Factors, engine calls and the two entry points *)

Section Orchestrator.

(** Collision geometry is opaque to this module. *)
Context {RobotColl CollGeom : Type}.

(** The factor objects, one constructor per [RobotFactors] factory, with
    the arguments of the call.  An optional argument that is [None] is
    one passed as [None] or left out. *)
Inductive Factor : Type :=
| limit_cost_factor
    (JointVar : VarClass Array) (var_idx : Z) (kin : JaxKinTree)
    (weights : Array)
| limit_vel_cost_factor
    (JointVar : VarClass Array) (var_idx : Z) (kin : JaxKinTree)
    (dt : Q) (weights : Array) (prev_cfg : Array)
| rest_cost_factor
    (JointVar : VarClass Array) (var_idx : Z) (weights : Array)
| ik_cost_factor
    (JointVar : VarClass Array) (var_idx : Z) (kin : JaxKinTree)
    (target_pose : list SE3) (target_joint_indices : list Z)
    (ik_weight : Array)
    (BaseConstrainedSE3VarType : option (VarClass SE3))
    (base_se3_var_idx : option Z)
| manipulability_cost_factor
    (JointVar : VarClass Array) (var_idx : Z) (kin : JaxKinTree)
    (target_joint_indices : list Z) (weight : Q)
| self_coll_factor
    (JointVar : VarClass Array) (var_idx : Z) (kin : JaxKinTree)
    (robot_coll : RobotColl) (margin : Q) (weight : Q)
| world_coll_factor
    (JointVar : VarClass Array) (var_idx : Z) (kin : JaxKinTree)
    (robot_coll : RobotColl) (coll : CollGeom) (margin : Q) (weight : Q).

(** The seven factor kinds of the data model. *)
Inductive FactorKind : Type :=
| PoseMatch | JointLimit | JointVelLimit | RestPose
| Manipulability | SelfCollision | WorldCollision.

Definition kind_of (f : Factor) : FactorKind :=
  match f with
  | limit_cost_factor _ _ _ _ => JointLimit
  | limit_vel_cost_factor _ _ _ _ _ _ => JointVelLimit
  | rest_cost_factor _ _ _ => RestPose
  | ik_cost_factor _ _ _ _ _ _ _ _ => PoseMatch
  | manipulability_cost_factor _ _ _ _ _ => Manipulability
  | self_coll_factor _ _ _ _ _ _ => SelfCollision
  | world_coll_factor _ _ _ _ _ _ _ => WorldCollision
  end.

Definition FactorKind_eqb (a b : FactorKind) : bool :=
  match a, b with
  | PoseMatch, PoseMatch | JointLimit, JointLimit
  | JointVelLimit, JointVelLimit | RestPose, RestPose
  | Manipulability, Manipulability | SelfCollision, SelfCollision
  | WorldCollision, WorldCollision => true
  | _, _ => false
  end.

(** How many factors of kind [k] a list holds. *)
Definition count_kind (k : FactorKind) (fs : list Factor) : nat :=
  List.length (filter (fun f => FactorKind_eqb (kind_of f) k) fs).

(** The joint variable a factor is attached to. *)
Definition factor_joint_var (f : Factor) : Var Array :=
  match f with
  | limit_cost_factor c i _ _
  | limit_vel_cost_factor c i _ _ _ _
  | rest_cost_factor c i _
  | ik_cost_factor c i _ _ _ _ _ _
  | manipulability_cost_factor c i _ _ _
  | self_coll_factor c i _ _ _ _
  | world_coll_factor c i _ _ _ _ _ => MkVar c i
  end.

(** Everything one call of [FactorGraph.make(...)] followed by
    [graph.solve(...)] hands to the engine.  [linear_solver = None] is
    the keyword left out. *)
Record SolveCall : Type := MkSolveCall
  { graph_factors : list Factor;
    graph_vars : list AnyVar;
    use_onp : bool;
    linear_solver : option LinearSolver;
    initial_vals : list (AnyVar * Value);
    trust_region : TrustRegionConfig;
    termination : TerminationConfig;
    verbose : bool }.

(** *** solve_ik *)

Definition solve_ik_factors (a : SolveIk.args) : list Factor :=
  let n := num_actuated_joints (SolveIk.kin a) in
  let factors :=
    [ limit_cost_factor
        (SolveIk.JointVar a) (SolveIk.joint_var_idx a) (SolveIk.kin a)
        (replicate (SolveIk.limit_weight a) n);
      limit_vel_cost_factor
        (SolveIk.JointVar a) (SolveIk.joint_var_idx a) (SolveIk.kin a)
        (SolveIk.dt a)
        (replicate (SolveIk.joint_vel_weight a) n)
        (SolveIk.initial_pose a);
      rest_cost_factor
        (SolveIk.JointVar a) (SolveIk.joint_var_idx a)
        (replicate (SolveIk.rest_weight a) n) ] in
  let factors :=
    factors ++
    [ ik_cost_factor
        (SolveIk.JointVar a) (SolveIk.joint_var_idx a) (SolveIk.kin a)
        (SolveIk.target_pose a) (SolveIk.target_joint_indices a)
        (SolveIk.ik_weight a)
        (SolveIk.ConstrainedSE3Var a) (SolveIk.pose_var_idx a) ] in
  if SolveIk.use_manipulability a then
    factors ++
    [ manipulability_cost_factor
        (SolveIk.JointVar a) (SolveIk.joint_var_idx a) (SolveIk.kin a)
        (SolveIk.target_joint_indices a) (SolveIk.manipulability_weight a) ]
  else factors.

(** [joint_vars] and [joint_var_values] after the conditional append. *)
Definition solve_ik_vars (a : SolveIk.args) : list AnyVar * list VarOrValue :=
  let joint_vars := [ JointV (MkVar (SolveIk.JointVar a) (SolveIk.joint_var_idx a)) ] in
  let joint_var_values :=
    [ with_value (MkVar (SolveIk.JointVar a) (SolveIk.joint_var_idx a))
                 (SolveIk.initial_pose a) ] in
  match SolveIk.ConstrainedSE3Var a, SolveIk.pose_var_idx a with
  | Some C, Some p =>
      (joint_vars ++ [ PoseV (MkVar C p) ],
       joint_var_values ++ [ Bare (PoseV (MkVar C p)) ])
  | _, _ => (joint_vars, joint_var_values)
  end.

Definition solve_ik_call (a : SolveIk.args) : SolveCall :=
  {| graph_factors := solve_ik_factors a;
     graph_vars := fst (solve_ik_vars a);
     use_onp := false;
     linear_solver := Some (SolveIk.solver_type a);
     initial_vals := VarValues_make (snd (solve_ik_vars a));
     trust_region := {| lambda_initial := None |};
     termination :=
       {| gradient_tolerance := 1 # 100000;
          parameter_tolerance := 1 # 100000;
          max_iterations := SolveIk.max_iterations a |};
     verbose := false |}.

(** *** solve_ik_with_coll *)

(** [RobotFactors.get_var_class(kin, initial_pose)] builds the joint
    variable class; the factory is defined outside this module. *)
Variable get_var_class : JaxKinTree -> Array -> VarClass Array.

Definition solve_ik_with_coll_factors
  (a : SolveIkWithColl.args RobotColl CollGeom) : list Factor :=
  let factors := [] in
  let JointVar :=
    get_var_class (SolveIkWithColl.kin a) (SolveIkWithColl.initial_pose a) in
  let joint_var_idx := 0 in
  let n := num_actuated_joints (SolveIkWithColl.kin a) in
  let ik_weight :=
    replicate (SolveIkWithColl.pos_weight a) 3 ++
    replicate (SolveIkWithColl.rot_weight a) 3 in
  let factors :=
    factors ++
    [ ik_cost_factor
        JointVar joint_var_idx (SolveIkWithColl.kin a)
        (SolveIkWithColl.target_poses a)
        (SolveIkWithColl.target_joint_indices a)
        ik_weight None None;
      rest_cost_factor
        JointVar joint_var_idx
        (replicate (SolveIkWithColl.rest_weight a) n);
      limit_vel_cost_factor
        JointVar joint_var_idx (SolveIkWithColl.kin a)
        (1 # 10)
        (replicate (SolveIkWithColl.limit_weight a) n)
        (SolveIkWithColl.initial_pose a);
      limit_cost_factor
        JointVar joint_var_idx (SolveIkWithColl.kin a)
        (replicate (SolveIkWithColl.limit_weight a) n) ] in
  let self_coll_factor_ :=
    self_coll_factor
      JointVar joint_var_idx (SolveIkWithColl.kin a)
      (SolveIkWithColl.robot_coll a) (5 # 100)
      (SolveIkWithColl.self_coll_weight a) in
  let world_coll_factors :=
    map (fun coll =>
           world_coll_factor
             JointVar joint_var_idx (SolveIkWithColl.kin a)
             (SolveIkWithColl.robot_coll a) coll (1 # 10)
             (SolveIkWithColl.world_coll_weight a))
        (SolveIkWithColl.world_coll a) in
  let factors := factors ++ [ self_coll_factor_ ] in
  factors ++ world_coll_factors.

Definition solve_ik_with_coll_call
  (a : SolveIkWithColl.args RobotColl CollGeom) : SolveCall :=
  let JointVar :=
    get_var_class (SolveIkWithColl.kin a) (SolveIkWithColl.initial_pose a) in
  let joint_var_idx := 0 in
  let joint_vars := [ JointV (MkVar JointVar joint_var_idx) ] in
  {| graph_factors := solve_ik_with_coll_factors a;
     graph_vars := joint_vars;
     use_onp := false;
     linear_solver := None;
     initial_vals := VarValues_make (map Bare joint_vars);
     trust_region := {| lambda_initial := Some 1%Q |};
     termination :=
       {| gradient_tolerance := 1 # 100000;
          parameter_tolerance := 1 # 100000;
          max_iterations := 50 |};
     verbose := false |}.

(** *** The engine and the values read back *)

(** [graph.solve] and [solution[var]] belong to the least-squares engine. *)
Class Engine : Type := MkEngine
  { Solution : Type;
    graph_solve : SolveCall -> Solution;
    solution_joint : Solution -> Var Array -> Array;
    solution_pose : Solution -> Var SE3 -> SE3 }.

Context {engine : Engine}.

Definition solve_ik (a : SolveIk.args) : SE3 * Array :=
  let solution := graph_solve (solve_ik_call a) in
  let base_pose :=
    match SolveIk.ConstrainedSE3Var a with
    | Some C => solution_pose solution (MkVar C 0)
    | None => SE3_identity
    end in
  let joints := solution_joint solution (MkVar (SolveIk.JointVar a) 0) in
  (base_pose, joints).

Definition solve_ik_with_coll
  (a : SolveIkWithColl.args RobotColl CollGeom) : Array :=
  let JointVar :=
    get_var_class (SolveIkWithColl.kin a) (SolveIkWithColl.initial_pose a) in
  let joint_var_idx := 0 in
  let solution := graph_solve (solve_ik_with_coll_call a) in
  solution_joint solution (MkVar JointVar joint_var_idx).

(** *** Runs of the entry points

    The bodies call into jax.numpy, RobotFactors and jaxls.  Any of these
    calls may raise; the bodies hold no [try], [raise], [assert] or test
    of their inputs, so a run raises what the first raising call raises
    and returns when none does. *)

(** A call into a collaborator, with its arguments. *)
Inductive LibCall : Type :=
| call_jnp_array (xs : list Q)
| call_get_var_class (kin : JaxKinTree) (default_val : Array)
| call_factory (f : Factor)
| call_Var (v : AnyVar)
| call_with_value (v : Var Array) (x : Array)
| call_FactorGraph_make (factors : list Factor) (vars : list AnyVar)
| call_VarValues_make (l : list VarOrValue)
| call_TrustRegionConfig (c : TrustRegionConfig)
| call_TerminationConfig (c : TerminationConfig)
| call_graph_solve (c : SolveCall)
| call_SE3_identity
| call_getitem (c : SolveCall) (v : AnyVar).

(** What the collaborators do with a call: the exception it raises, or
    [None] when it returns. *)
Class Library : Type := MkLibrary
  { raises : LibCall -> option string }.

Context {library : Library}.

(** The exception of the first call of a sequence that raises. *)
Fixpoint first_raise (calls : list LibCall) : option string :=
  match calls with
  | [] => None
  | c :: rest =>
      match raises c with
      | Some err => Some err
      | None => first_raise rest
      end
  end.

(** A factory call, after the [jnp.array([w] * n)] call that builds its
    weight argument where the source has one. *)
Definition factory_calls (f : Factor) : list LibCall :=
  match f with
  | limit_cost_factor _ _ _ w
  | limit_vel_cost_factor _ _ _ _ w _
  | rest_cost_factor _ _ w => [ call_jnp_array w; call_factory f ]
  | _ => [ call_factory f ]
  end.

(** The calls of solve_ik up to [graph.solve], in the order of the body. *)
Definition solve_ik_setup_calls (a : SolveIk.args) : list LibCall :=
  let jv := MkVar (SolveIk.JointVar a) (SolveIk.joint_var_idx a) in
  flat_map factory_calls (solve_ik_factors a)
  ++ [ call_Var (JointV jv); call_Var (JointV jv);
       call_with_value jv (SolveIk.initial_pose a) ]
  ++ match SolveIk.ConstrainedSE3Var a, SolveIk.pose_var_idx a with
     | Some C, Some p =>
         [ call_Var (PoseV (MkVar C p)); call_Var (PoseV (MkVar C p)) ]
     | _, _ => []
     end
  ++ [ call_FactorGraph_make (solve_ik_factors a) (fst (solve_ik_vars a));
       call_VarValues_make (snd (solve_ik_vars a));
       call_TrustRegionConfig (trust_region (solve_ik_call a));
       call_TerminationConfig (termination (solve_ik_call a)) ].

(** The calls of solve_ik after [graph.solve]. *)
Definition solve_ik_readback_calls (a : SolveIk.args) : list LibCall :=
  match SolveIk.ConstrainedSE3Var a with
  | Some C =>
      [ call_Var (PoseV (MkVar C 0));
        call_getitem (solve_ik_call a) (PoseV (MkVar C 0)) ]
  | None => [ call_SE3_identity ]
  end
  ++ [ call_Var (JointV (MkVar (SolveIk.JointVar a) 0));
       call_getitem (solve_ik_call a)
                    (JointV (MkVar (SolveIk.JointVar a) 0)) ].

Definition solve_ik_calls (a : SolveIk.args) : list LibCall :=
  solve_ik_setup_calls a
  ++ [ call_graph_solve (solve_ik_call a) ]
  ++ solve_ik_readback_calls a.

Definition solve_ik_with_coll_setup_calls
  (a : SolveIkWithColl.args RobotColl CollGeom) : list LibCall :=
  let JointVar :=
    get_var_class (SolveIkWithColl.kin a) (SolveIkWithColl.initial_pose a) in
  let jv := MkVar JointVar 0 in
  [ call_get_var_class (SolveIkWithColl.kin a) (SolveIkWithColl.initial_pose a);
    call_jnp_array (replicate (SolveIkWithColl.pos_weight a) 3 ++
                    replicate (SolveIkWithColl.rot_weight a) 3) ]
  ++ flat_map factory_calls (solve_ik_with_coll_factors a)
  ++ [ call_Var (JointV jv);
       call_FactorGraph_make (solve_ik_with_coll_factors a) [ JointV jv ];
       call_VarValues_make (map Bare [ JointV jv ]);
       call_TrustRegionConfig (trust_region (solve_ik_with_coll_call a));
       call_TerminationConfig (termination (solve_ik_with_coll_call a)) ].

Definition solve_ik_with_coll_readback_calls
  (a : SolveIkWithColl.args RobotColl CollGeom) : list LibCall :=
  let JointVar :=
    get_var_class (SolveIkWithColl.kin a) (SolveIkWithColl.initial_pose a) in
  let jv := MkVar JointVar 0 in
  [ call_Var (JointV jv);
    call_getitem (solve_ik_with_coll_call a) (JointV jv) ].

Definition solve_ik_with_coll_calls
  (a : SolveIkWithColl.args RobotColl CollGeom) : list LibCall :=
  solve_ik_with_coll_setup_calls a
  ++ [ call_graph_solve (solve_ik_with_coll_call a) ]
  ++ solve_ik_with_coll_readback_calls a.

(** A run raises the exception of its first raising call, or makes its
    engine call and returns. *)
Inductive Run (R : Type) : Type :=
| Raises (err : string)
| Solves (call : SolveCall) (result : R).
Arguments Raises {R} _.
Arguments Solves {R} _ _.

Definition solve_ik_run (a : SolveIk.args) : Run (SE3 * Array) :=
  match first_raise (solve_ik_calls a) with
  | Some err => Raises err
  | None => Solves (solve_ik_call a) (solve_ik a)
  end.

Definition solve_ik_with_coll_run
  (a : SolveIkWithColl.args RobotColl CollGeom) : Run Array :=
  match first_raise (solve_ik_with_coll_calls a) with
  | Some err => Raises err
  | None => Solves (solve_ik_with_coll_call a) (solve_ik_with_coll a)
  end.

(** *** Views of an engine call used to state properties *)

(** The joint variables of [initial_vals], each with the value it starts
    from. *)
Definition joint_initial_values (c : SolveCall) : list (Var Array * Array) :=
  flat_map (fun e => match e with
                     | (JointV v, ArrayVal x) => [ (v, x) ]
                     | _ => []
                     end) (initial_vals c).

(** The base-pose variables among the declared variables. *)
Definition pose_vars (vs : list AnyVar) : list (Var SE3) :=
  flat_map (fun v => match v with PoseV p => [ p ] | JointV _ => [] end) vs.

Definition joint_vars_of (vs : list AnyVar) : list (Var Array) :=
  flat_map (fun v => match v with JointV j => [ j ] | PoseV _ => [] end) vs.

(** The previous-configuration references of the joint-velocity-limit
    factors of a list. *)
Definition vel_limit_references (fs : list Factor) : list Array :=
  flat_map (fun f => match f with
                     | limit_vel_cost_factor _ _ _ _ _ prev_cfg => [ prev_cfg ]
                     | _ => []
                     end) fs.

(** The obstacles of the world-collision factors of a list, in order. *)
Definition world_coll_geoms (fs : list Factor) : list CollGeom :=
  flat_map (fun f => match f with
                     | world_coll_factor _ _ _ _ coll _ _ => [ coll ]
                     | _ => []
                     end) fs.

(** The base-pose variable a pose-match factor composes with, if any. *)
Definition factor_base_var (f : Factor) : option (VarClass SE3 * option Z) :=
  match f with
  | ik_cost_factor _ _ _ _ _ _ (Some C) p => Some (C, p)
  | _ => None
  end.

(** *** Malformed input, in the words of the error taxonomy

    A target link index out of range, mismatched vector lengths (targets
    against target indices, a configuration against the joint count), or a
    negative weight. *)
Definition negative (w : Q) : bool := negb (Qle_bool 0 w).

Definition index_out_of_range (kin : JaxKinTree) (i : Z) : bool :=
  (i <? 0) || (Z.of_nat (num_joints kin) <=? i).

Definition spec_malformed_solve_ik (a : SolveIk.args) : bool :=
  existsb (index_out_of_range (SolveIk.kin a)) (SolveIk.target_joint_indices a)
  || negb (Nat.eqb (List.length (SolveIk.target_pose a))
                   (List.length (SolveIk.target_joint_indices a)))
  || negb (Nat.eqb (List.length (SolveIk.initial_pose a))
                   (num_actuated_joints (SolveIk.kin a)))
  || existsb negative
       (SolveIk.rest_weight a :: SolveIk.limit_weight a ::
        SolveIk.joint_vel_weight a :: SolveIk.manipulability_weight a ::
        SolveIk.ik_weight a).

Definition spec_malformed_solve_ik_with_coll
  (a : SolveIkWithColl.args RobotColl CollGeom) : bool :=
  existsb (index_out_of_range (SolveIkWithColl.kin a))
          (SolveIkWithColl.target_joint_indices a)
  || negb (Nat.eqb (List.length (SolveIkWithColl.target_poses a))
                   (List.length (SolveIkWithColl.target_joint_indices a)))
  || negb (Nat.eqb (List.length (SolveIkWithColl.initial_pose a))
                   (num_actuated_joints (SolveIkWithColl.kin a)))
  || existsb negative
       [ SolveIkWithColl.pos_weight a; SolveIkWithColl.rot_weight a;
         SolveIkWithColl.rest_weight a; SolveIkWithColl.limit_weight a;
         SolveIkWithColl.self_coll_weight a;
         SolveIkWithColl.world_coll_weight a ].

End Orchestrator.

Arguments Factor : clear implicits.
Arguments SolveCall : clear implicits.
Arguments Engine : clear implicits.
Arguments LibCall : clear implicits.
Arguments Library : clear implicits.
Arguments Run : clear implicits.
Arguments Raises {RobotColl CollGeom R} _.
Arguments Solves {RobotColl CollGeom R} _ _.

(** ** Residuals of the factors

    The residual functions of [RobotFactors] are defined outside this
    module.  They are given here in the form the design describes, over
    IEEE floats ([spec_float]: signed zeros, infinities and NaN, with
    rounding to nearest even), with the kinematic model and the collision
    queries as services. *)

Section Residuals.

Context {RobotColl CollGeom : Type}.

(** The float format: [prec = 24] and [emax = 128] is float32, the
    default of jax; [prec = 53] and [emax = 1024] is float64. *)
Variables prec emax : Z.

Definition FArray := list spec_float.

Definition is_finite (x : spec_float) : bool :=
  match x with
  | S754_zero _ | S754_finite _ _ _ => true
  | S754_infinity _ | S754_nan => false
  end.

Definition is_zero (x : spec_float) : bool :=
  match x with
  | S754_zero _ => true
  | _ => false
  end.

(** The float of an integer and of a rational literal: a zero is [+0.0],
    any other rational the rounded quotient of numerator and
    denominator. *)
Definition Z2F (z : Z) : spec_float := binary_normalize prec emax z 0 false.

Definition Q2F (q : Q) : spec_float :=
  match Qnum q with
  | Z0 => S754_zero false
  | n => SFdiv prec emax (Z2F n) (Z2F (Zpos (Qden q)))
  end.

(** [jnp.maximum]: the larger argument, NaN when either is NaN. *)
Definition fmax (x y : spec_float) : spec_float :=
  match SFcompare x y with
  | None => S754_nan
  | Some Lt => y
  | Some _ => x
  end.

(** The kinematic model and the collision query services: the pose error
    of a link against its target (a log-map 6-vector), a manipulability
    error per target link, and the distances of the collision pairs. *)
Class Services : Type := MkServices
  { pose_error :
      JaxKinTree -> FArray -> option FArray -> Z -> SE3 -> FArray;
    manipulability_error : JaxKinTree -> FArray -> Z -> spec_float;
    self_distances : RobotColl -> JaxKinTree -> FArray -> FArray;
    world_distances :
      RobotColl -> JaxKinTree -> FArray -> CollGeom -> FArray }.

Context {services : Services}.

(** Modelled from the spec: the weighting of a residual by its weights,
    entry by entry (the residual functions of RobotFactors are missing). *)
Definition weight_scaled (w : Array) (r : FArray) : FArray :=
  map (fun wr => SFmul prec emax (Q2F (fst wr)) (snd wr)) (combine w r).

(** Modelled from the spec: the weighting of a residual by one scalar
    weight (the residual functions of RobotFactors are missing). *)
Definition scalar_scaled (w : Q) (r : FArray) : FArray :=
  map (SFmul prec emax (Q2F w)) r.

(** Modelled from the spec: the joint-limit error of one joint (the
    residual function of the joint-limit factor is missing): zero inside
    [lo, hi], the signed excess beyond the nearest bound outside. *)
Definition limit_excess (lo hi q : spec_float) : spec_float :=
  if SFltb q lo then SFsub prec emax q lo
  else if SFltb hi q then SFsub prec emax q hi
  else S754_zero false.

Definition limit_errors (kin : JaxKinTree) (q : FArray) : FArray :=
  map (fun b => limit_excess (Q2F (fst (fst b))) (Q2F (snd (fst b))) (snd b))
      (combine (combine (limits_lower kin) (limits_upper kin)) q).

(** Modelled from the spec: the joint-velocity-limit error of one joint
    (the residual function of that factor is missing): the speed
    [(q - prev) / dt] against the velocity bound, zero inside the bound,
    the excess otherwise. *)
Definition vel_excess (dt prev bound q : spec_float) : spec_float :=
  fmax (S754_zero false)
       (SFsub prec emax
          (SFabs (SFdiv prec emax (SFsub prec emax q prev) dt)) bound).

Definition limit_vel_errors
  (kin : JaxKinTree) (dt : Q) (prev : Array) (q : FArray) : FArray :=
  map (fun b =>
         vel_excess (Q2F dt) (Q2F (fst (fst b))) (Q2F (snd (fst b))) (snd b))
      (combine (combine prev (joint_vel_limit kin)) q).

(** Modelled from the spec: the rest-pose error (its function is
    missing): the configuration minus the reference configuration, which
    for a factor that carries none is the default of the variable class. *)
Definition rest_errors (rest : Array) (q : FArray) : FArray :=
  map (fun b => SFsub prec emax (snd b) (Q2F (fst b))) (combine rest q).

(** Modelled from the spec: the residual of a factor before weighting,
    at the configuration [q] of its joint variable and the value [base]
    of the base-pose variable (the residual functions of RobotFactors
    are missing).  The pose-match error is the 6-vector pose error of
    each target, the targets concatenated; the collision error of a pair
    is [max(0, margin - distance)]. *)
Definition unweighted_residual
  (f : Factor RobotColl CollGeom) (q : FArray) (base : FArray) : FArray :=
  match f with
  | limit_cost_factor _ _ kin _ => limit_errors kin q
  | limit_vel_cost_factor _ _ kin dt _ prev => limit_vel_errors kin dt prev q
  | rest_cost_factor JointVar _ _ => rest_errors (cls_default JointVar) q
  | ik_cost_factor _ _ kin targets links _ B _ =>
      flat_map
        (fun t => pose_error kin q
                    (match B with Some _ => Some base | None => None end)
                    (fst t) (snd t))
        (combine links targets)
  | manipulability_cost_factor _ _ kin links _ =>
      map (manipulability_error kin q) links
  | self_coll_factor _ _ kin rc margin _ =>
      map (fun d => fmax (S754_zero false) (SFsub prec emax (Q2F margin) d))
          (self_distances rc kin q)
  | world_coll_factor _ _ kin rc coll margin _ =>
      map (fun d => fmax (S754_zero false) (SFsub prec emax (Q2F margin) d))
          (world_distances rc kin q coll)
  end.

(** Modelled from the spec: the residual of a factor, its error scaled
    by its weights (the residual functions of RobotFactors are missing):
    per joint for the limit, velocity and rest factors, by the 6-element
    weight for each target of the pose-match factor, by the scalar weight
    for the manipulability and collision factors. *)
Definition factor_residual
  (f : Factor RobotColl CollGeom) (q : FArray) (base : FArray) : FArray :=
  match f with
  | limit_cost_factor _ _ _ w
  | limit_vel_cost_factor _ _ _ _ w _
  | rest_cost_factor _ _ w => weight_scaled w (unweighted_residual f q base)
  | ik_cost_factor _ _ kin targets links w B _ =>
      flat_map
        (fun t => weight_scaled w
                    (pose_error kin q
                       (match B with Some _ => Some base | None => None end)
                       (fst t) (snd t)))
        (combine links targets)
  | manipulability_cost_factor _ _ _ _ w
  | self_coll_factor _ _ _ _ _ w
  | world_coll_factor _ _ _ _ _ _ w =>
      scalar_scaled w (unweighted_residual f q base)
  end.

(** Modelled from the spec: the contribution of a factor to the
    least-squares objective (the engine's objective is missing): the sum
    of the squares of its residual. *)
Definition sum_squares (r : FArray) : spec_float :=
  fold_right (fun x acc => SFadd prec emax (SFmul prec emax x x) acc)
             (S754_zero false) r.

Definition factor_cost
  (f : Factor RobotColl CollGeom) (q : FArray) (base : FArray) : spec_float :=
  sum_squares (factor_residual f q base).

Definition all_zero (r : Array) : Prop := Forall (fun x => x == 0) r.

(** A factor constructed with weight 0: every entry of its weight vector,
    or its scalar weight, is zero. *)
Definition zero_weight (f : Factor RobotColl CollGeom) : Prop :=
  match f with
  | limit_cost_factor _ _ _ w
  | limit_vel_cost_factor _ _ _ _ w _
  | rest_cost_factor _ _ w
  | ik_cost_factor _ _ _ _ _ w _ _ => all_zero w
  | manipulability_cost_factor _ _ _ _ w
  | self_coll_factor _ _ _ _ _ w
  | world_coll_factor _ _ _ _ _ _ w => w == 0
  end.

End Residuals.

Arguments Services : clear implicits.

(** ** A sample robot, engine and calls *)

Module Sample.
Local Open Scope string_scope.

(** A three-joint tree with two actuated joints. *)
Definition kin : JaxKinTree :=
  {| num_joints := 3;
     num_actuated_joints := 2;
     limits_lower := [-3; -3]%Q;
     limits_upper := [3; 3]%Q;
     joint_vel_limit := [1; 1]%Q |}.

Definition JointVar : VarClass Array := MkVarClass "JointVar" [0; 0]%Q.

Definition ConstrainedSE3Var : VarClass SE3 :=
  MkVarClass "ConstrainedSE3Var" SE3_identity.

(** A factory that makes its second argument the default of the class. *)
Definition get_var_class (_ : JaxKinTree) (q : Array) : VarClass Array :=
  MkVarClass "JointVar" q.

Definition target : SE3 := MkSE3 [1; 0; 0; 0; 1 # 2; 0; 1 # 4]%Q.

Definition q0 : Array := [1 # 10; -(2 # 10)]%Q.

(** Geometry by name. *)
Definition RobotColl := string.
Definition CollGeom := string.

(** An engine that stops at once: the solution is the initial assignment. *)
Definition lookup_joint (sol : list (AnyVar * Value)) (v : Var Array) : Array :=
  match find (fun e => match fst e with
                       | JointV j => Z.eqb (var_id j) (var_id v)
                       | PoseV _ => false
                       end) sol with
  | Some (_, ArrayVal x) => x
  | _ => []
  end.

Definition lookup_pose (sol : list (AnyVar * Value)) (v : Var SE3) : SE3 :=
  match find (fun e => match fst e with
                       | PoseV p => Z.eqb (var_id p) (var_id v)
                       | JointV _ => false
                       end) sol with
  | Some (_, SE3Val T) => T
  | _ => SE3_identity
  end.

Definition engine : Engine RobotColl CollGeom :=
  {| Solution := list (AnyVar * Value);
     graph_solve := fun c => initial_vals c;
     solution_joint := lookup_joint;
     solution_pose := lookup_pose |}.

(** Constant services, in float32. *)
Definition f32 (q : Q) : spec_float := Q2F 24 128 q.

Definition services : Services RobotColl CollGeom :=
  {| pose_error := fun _ _ _ _ _ => map f32 [1; 2; 3; 4; 5; 6]%Q;
     manipulability_error := fun _ _ _ => f32 (1 # 3);
     self_distances := fun _ _ _ => map f32 [1; -(1 # 100)]%Q;
     world_distances := fun _ _ _ _ => map f32 [0; 1 # 2]%Q |}.

(** Collaborators that check shapes and nothing else: a factory raises
    when its per-joint arrays do not have one entry per actuated joint,
    when targets and target indices differ in number or when the pose
    weight has not six entries; [with_value] and the class factory raise
    on a configuration of the wrong length.  No call looks at the sign of
    a weight or at the range of an index. *)
Definition shape_error : string := "TypeError: incompatible shapes".

Definition check (ok : bool) : option string :=
  if ok then None else Some shape_error.

Definition library : Library RobotColl CollGeom :=
  {| raises := fun c =>
       match c with
       | call_factory (limit_cost_factor _ _ kin w) =>
           check (Nat.eqb (List.length w) (num_actuated_joints kin))
       | call_factory (limit_vel_cost_factor _ _ kin _ w prev) =>
           check (Nat.eqb (List.length w) (num_actuated_joints kin)
                  && Nat.eqb (List.length prev) (num_actuated_joints kin))
       | call_factory (rest_cost_factor JV _ w) =>
           check (Nat.eqb (List.length w) (List.length (cls_default JV)))
       | call_factory (ik_cost_factor _ _ _ targets links w _ _) =>
           check (Nat.eqb (List.length targets) (List.length links)
                  && Nat.eqb (List.length w) 6)
       | call_with_value v x =>
           check (Nat.eqb (List.length x)
                          (List.length (cls_default (var_cls v))))
       | call_get_var_class kin q =>
           check (Nat.eqb (List.length q) (num_actuated_joints kin))
       | _ => None
       end |}.

(** [solve_ik(kin, target, [2], q0, JointVar, ik_weight)] *)
Definition ik_plain : SolveIk.args :=
  SolveIk.with_defaults kin [target] [2] q0 JointVar [5; 5; 5; 1; 1; 1]%Q.

(** The same call with a floating base, [joint_var_idx=3],
    [pose_var_idx=2] and the manipulability term. *)
Definition ik_shifted : SolveIk.args :=
  {| SolveIk.kin := kin;
     SolveIk.target_pose := [target];
     SolveIk.target_joint_indices := [2];
     SolveIk.initial_pose := q0;
     SolveIk.JointVar := JointVar;
     SolveIk.ik_weight := [5; 5; 5; 1; 1; 1]%Q;
     SolveIk.joint_var_idx := 3;
     SolveIk.rest_weight := 1 # 1000;
     SolveIk.limit_weight := 100;
     SolveIk.joint_vel_weight := 0;
     SolveIk.dt := 1 # 100;
     SolveIk.use_manipulability := true;
     SolveIk.manipulability_weight := 1 # 1000;
     SolveIk.solver_type := dense_cholesky;
     SolveIk.ConstrainedSE3Var := Some ConstrainedSE3Var;
     SolveIk.pose_var_idx := Some 2;
     SolveIk.max_iterations := 20 |}.

(** A call that is malformed in each way of the taxonomy: target index 7
    on a three-joint tree, two indices for one target pose, a
    three-entry configuration for two actuated joints, and negative rest
    and pose weights. *)
Definition ik_malformed : SolveIk.args :=
  {| SolveIk.kin := kin;
     SolveIk.target_pose := [target];
     SolveIk.target_joint_indices := [7; 1];
     SolveIk.initial_pose := [0; 0; 0]%Q;
     SolveIk.JointVar := JointVar;
     SolveIk.ik_weight := [5; 5; 5; -1; 1; 1]%Q;
     SolveIk.joint_var_idx := 0;
     SolveIk.rest_weight := -1;
     SolveIk.limit_weight := 100;
     SolveIk.joint_vel_weight := 0;
     SolveIk.dt := 1 # 100;
     SolveIk.use_manipulability := false;
     SolveIk.manipulability_weight := 1 # 1000;
     SolveIk.solver_type := conjugate_gradient;
     SolveIk.ConstrainedSE3Var := None;
     SolveIk.pose_var_idx := Some 0;
     SolveIk.max_iterations := 50 |}.

(** A call that is well shaped, with every index in range, and malformed
    by its weights alone: a negative rest weight and a negative entry in
    the pose weight. *)
Definition ik_negative_weight : SolveIk.args :=
  {| SolveIk.kin := kin;
     SolveIk.target_pose := [target];
     SolveIk.target_joint_indices := [2];
     SolveIk.initial_pose := q0;
     SolveIk.JointVar := JointVar;
     SolveIk.ik_weight := [5; 5; 5; -1; 1; 1]%Q;
     SolveIk.joint_var_idx := 0;
     SolveIk.rest_weight := -1;
     SolveIk.limit_weight := 100;
     SolveIk.joint_vel_weight := 0;
     SolveIk.dt := 1 # 100;
     SolveIk.use_manipulability := false;
     SolveIk.manipulability_weight := 1 # 1000;
     SolveIk.solver_type := conjugate_gradient;
     SolveIk.ConstrainedSE3Var := None;
     SolveIk.pose_var_idx := Some 0;
     SolveIk.max_iterations := 50 |}.

(** The plain call with [dt=0.0]; joint_vel_weight keeps its default. *)
Definition ik_dt_zero : SolveIk.args :=
  {| SolveIk.kin := kin;
     SolveIk.target_pose := [target];
     SolveIk.target_joint_indices := [2];
     SolveIk.initial_pose := q0;
     SolveIk.JointVar := JointVar;
     SolveIk.ik_weight := [5; 5; 5; 1; 1; 1]%Q;
     SolveIk.joint_var_idx := 0;
     SolveIk.rest_weight := 1 # 1000;
     SolveIk.limit_weight := 100;
     SolveIk.joint_vel_weight := 0;
     SolveIk.dt := 0;
     SolveIk.use_manipulability := false;
     SolveIk.manipulability_weight := 1 # 1000;
     SolveIk.solver_type := conjugate_gradient;
     SolveIk.ConstrainedSE3Var := None;
     SolveIk.pose_var_idx := Some 0;
     SolveIk.max_iterations := 50 |}.

(** [solve_ik_with_coll] with two obstacles. *)
Definition coll_plain : SolveIkWithColl.args RobotColl CollGeom :=
  SolveIkWithColl.with_defaults
    kin [2] [target] "arm" ["sphere"; "table"] q0.

Definition coll_malformed : SolveIkWithColl.args RobotColl CollGeom :=
  {| SolveIkWithColl.kin := kin;
     SolveIkWithColl.target_joint_indices := [-1; 2];
     SolveIkWithColl.target_poses := [target];
     SolveIkWithColl.robot_coll := "arm";
     SolveIkWithColl.world_coll := ["sphere"];
     SolveIkWithColl.initial_pose := [0]%Q;
     SolveIkWithColl.pos_weight := 5;
     SolveIkWithColl.rot_weight := 1;
     SolveIkWithColl.rest_weight := 1 # 1000;
     SolveIkWithColl.limit_weight := 100;
     SolveIkWithColl.self_coll_weight := 5;
     SolveIkWithColl.world_coll_weight := -10 |}.

(** The same for the collision-aware entry point: a negative
    world-collision weight. *)
Definition coll_negative_weight : SolveIkWithColl.args RobotColl CollGeom :=
  {| SolveIkWithColl.kin := kin;
     SolveIkWithColl.target_joint_indices := [2];
     SolveIkWithColl.target_poses := [target];
     SolveIkWithColl.robot_coll := "arm";
     SolveIkWithColl.world_coll := ["sphere"];
     SolveIkWithColl.initial_pose := q0;
     SolveIkWithColl.pos_weight := 5;
     SolveIkWithColl.rot_weight := 1;
     SolveIkWithColl.rest_weight := 1 # 1000;
     SolveIkWithColl.limit_weight := 100;
     SolveIkWithColl.self_coll_weight := 5;
     SolveIkWithColl.world_coll_weight := -10 |}.

End Sample.

(** ** Further views of the assembled factors *)

Section FactorViews.

Context {RobotColl CollGeom : Type}.

(** The per-joint weight vector of a joint-limit, joint-velocity-limit or
    rest-pose factor. *)
Definition per_joint_weights (f : Factor RobotColl CollGeom) : option Array :=
  match f with
  | limit_cost_factor _ _ _ w
  | limit_vel_cost_factor _ _ _ _ w _
  | rest_cost_factor _ _ w => Some w
  | _ => None
  end.

(** The 6-element weights of the pose-match factors of a list. *)
Definition ik_weights_of (fs : list (Factor RobotColl CollGeom)) : list Array :=
  flat_map (fun f => match f with
                     | ik_cost_factor _ _ _ _ _ w _ _ => [ w ]
                     | _ => []
                     end) fs.

(** Time step and weights of the joint-velocity-limit factors of a list. *)
Definition vel_limit_params
  (fs : list (Factor RobotColl CollGeom)) : list (Q * Array) :=
  flat_map (fun f => match f with
                     | limit_vel_cost_factor _ _ _ dt w _ => [ (dt, w) ]
                     | _ => []
                     end) fs.

(** Weights of the joint-limit factors of a list. *)
Definition joint_limit_weights
  (fs : list (Factor RobotColl CollGeom)) : list Array :=
  flat_map (fun f => match f with
                     | limit_cost_factor _ _ _ w => [ w ]
                     | _ => []
                     end) fs.

(** Robot geometry, margin and weight of a collision factor. *)
Definition collision_params
  (f : Factor RobotColl CollGeom) : option (RobotColl * Q * Q) :=
  match f with
  | self_coll_factor _ _ _ rc margin w
  | world_coll_factor _ _ _ rc _ margin w => Some (rc, margin, w)
  | _ => None
  end.

(** The call [a] with [world_coll] replaced. *)
Definition with_world_coll
  (obstacles : list CollGeom) (a : SolveIkWithColl.args RobotColl CollGeom)
  : SolveIkWithColl.args RobotColl CollGeom :=
  {| SolveIkWithColl.kin := SolveIkWithColl.kin a;
     SolveIkWithColl.target_joint_indices :=
       SolveIkWithColl.target_joint_indices a;
     SolveIkWithColl.target_poses := SolveIkWithColl.target_poses a;
     SolveIkWithColl.robot_coll := SolveIkWithColl.robot_coll a;
     SolveIkWithColl.world_coll := obstacles;
     SolveIkWithColl.initial_pose := SolveIkWithColl.initial_pose a;
     SolveIkWithColl.pos_weight := SolveIkWithColl.pos_weight a;
     SolveIkWithColl.rot_weight := SolveIkWithColl.rot_weight a;
     SolveIkWithColl.rest_weight := SolveIkWithColl.rest_weight a;
     SolveIkWithColl.limit_weight := SolveIkWithColl.limit_weight a;
     SolveIkWithColl.self_coll_weight := SolveIkWithColl.self_coll_weight a;
     SolveIkWithColl.world_coll_weight := SolveIkWithColl.world_coll_weight a |}.

End FactorViews.

(** The call [a] with [manipulability_weight] replaced. *)
Definition with_manipulability_weight (w : Q) (a : SolveIk.args) : SolveIk.args :=
  {| SolveIk.kin := SolveIk.kin a;
     SolveIk.target_pose := SolveIk.target_pose a;
     SolveIk.target_joint_indices := SolveIk.target_joint_indices a;
     SolveIk.initial_pose := SolveIk.initial_pose a;
     SolveIk.JointVar := SolveIk.JointVar a;
     SolveIk.ik_weight := SolveIk.ik_weight a;
     SolveIk.joint_var_idx := SolveIk.joint_var_idx a;
     SolveIk.rest_weight := SolveIk.rest_weight a;
     SolveIk.limit_weight := SolveIk.limit_weight a;
     SolveIk.joint_vel_weight := SolveIk.joint_vel_weight a;
     SolveIk.dt := SolveIk.dt a;
     SolveIk.use_manipulability := SolveIk.use_manipulability a;
     SolveIk.manipulability_weight := w;
     SolveIk.solver_type := SolveIk.solver_type a;
     SolveIk.ConstrainedSE3Var := SolveIk.ConstrainedSE3Var a;
     SolveIk.pose_var_idx := SolveIk.pose_var_idx a;
     SolveIk.max_iterations := SolveIk.max_iterations a |}.

Module SampleEdge.

(** A floating-base call with [pose_var_idx=None]. *)
Definition ik_no_pose_idx : SolveIk.args :=
  {| SolveIk.kin := Sample.kin;
     SolveIk.target_pose := [Sample.target];
     SolveIk.target_joint_indices := [2];
     SolveIk.initial_pose := Sample.q0;
     SolveIk.JointVar := Sample.JointVar;
     SolveIk.ik_weight := [5; 5; 5; 1; 1; 1]%Q;
     SolveIk.joint_var_idx := 0;
     SolveIk.rest_weight := 1 # 1000;
     SolveIk.limit_weight := 100;
     SolveIk.joint_vel_weight := 0;
     SolveIk.dt := 1 # 100;
     SolveIk.use_manipulability := false;
     SolveIk.manipulability_weight := 1 # 1000;
     SolveIk.solver_type := cholmod;
     SolveIk.ConstrainedSE3Var := Some Sample.ConstrainedSE3Var;
     SolveIk.pose_var_idx := None;
     SolveIk.max_iterations := 50 |}.

End SampleEdge.

(** ** Properties of the assembled problem *)

Section Properties.

Context {RobotColl CollGeom : Type}.
Context {engine : Engine RobotColl CollGeom}.
Variable get_var_class : JaxKinTree -> Array -> VarClass Array.

Local Abbreviation ik_factors := (@solve_ik_factors RobotColl CollGeom).
Local Abbreviation ik_call := (@solve_ik_call RobotColl CollGeom).
Local Abbreviation coll_factors :=
  (@solve_ik_with_coll_factors RobotColl CollGeom get_var_class).
Local Abbreviation coll_call :=
  (@solve_ik_with_coll_call RobotColl CollGeom get_var_class).

(** *** Shape of the two factor lists *)

Lemma solve_ik_factor_kinds (a : SolveIk.args) :
  map kind_of (ik_factors a) =
  [JointLimit; JointVelLimit; RestPose; PoseMatch] ++
  (if SolveIk.use_manipulability a then [Manipulability] else []).
Proof.
  unfold solve_ik_factors.
  destruct (SolveIk.use_manipulability a); reflexivity.
Qed.

Lemma map_kind_world_coll
  (mk : CollGeom -> Factor RobotColl CollGeom) (obstacles : list CollGeom) :
  (forall c, kind_of (mk c) = WorldCollision) ->
  map kind_of (map mk obstacles) =
  repeat WorldCollision (List.length obstacles).
Proof.
  intros Hmk.
  induction obstacles as [| c rest IH]; simpl.
  - reflexivity.
  - rewrite Hmk, IH. reflexivity.
Qed.

Lemma solve_ik_with_coll_factor_kinds
  (a : SolveIkWithColl.args RobotColl CollGeom) :
  map kind_of (coll_factors a) =
  [PoseMatch; RestPose; JointVelLimit; JointLimit; SelfCollision] ++
  repeat WorldCollision (List.length (SolveIkWithColl.world_coll a)).
Proof.
  unfold solve_ik_with_coll_factors.
  cbn [app].
  rewrite !map_cons.
  rewrite map_kind_world_coll by reflexivity.
  reflexivity.
Qed.

Lemma count_kind_of_kinds (k : FactorKind) (kinds : list FactorKind)
  (fs : list (Factor RobotColl CollGeom)) :
  map kind_of fs = kinds ->
  count_kind k fs =
  List.length (filter (fun k' => FactorKind_eqb k' k) kinds).
Proof.
  intros <-.
  unfold count_kind.
  induction fs as [| f fs IH]; simpl.
  - reflexivity.
  - destruct (FactorKind_eqb (kind_of f) k); simpl; rewrite IH; reflexivity.
Qed.

Lemma filter_repeat_same (n : nat) :
  filter (fun k' => FactorKind_eqb k' WorldCollision) (repeat WorldCollision n)
  = repeat WorldCollision n.
Proof.
  induction n as [| n IH]; simpl; [reflexivity | now rewrite IH].
Qed.

Lemma filter_repeat_other (k : FactorKind) (n : nat) :
  k <> WorldCollision ->
  filter (fun k' => FactorKind_eqb k' k) (repeat WorldCollision n) = [].
Proof.
  intros Hk.
  induction n as [| n IH]; simpl; [reflexivity |].
  destruct k; try contradiction; simpl; exact IH.
Qed.

Lemma world_coll_geoms_map
  (JV : VarClass Array) (i : Z) (kin : JaxKinTree) (rc : RobotColl)
  (margin w : Q) (obstacles : list CollGeom) :
  world_coll_geoms
    (map (fun coll => world_coll_factor JV i kin rc coll margin w) obstacles)
  = obstacles.
Proof.
  unfold world_coll_geoms.
  induction obstacles as [| c rest IH]; simpl.
  - reflexivity.
  - rewrite IH. reflexivity.
Qed.

(** C5: with k world obstacles, solve_ik_with_coll assembles, in this
    order, one pose-match, one rest-pose, one joint-velocity-limit, one
    joint-limit and one self-collision factor followed by k
    world-collision factors, one per obstacle in the order given, and no
    manipulability factor. *)
Theorem solve_ik_with_coll_factor_list
  (a : SolveIkWithColl.args RobotColl CollGeom) :
  let k := List.length (SolveIkWithColl.world_coll a) in
  map kind_of (graph_factors (coll_call a)) =
    [PoseMatch; RestPose; JointVelLimit; JointLimit; SelfCollision] ++
    repeat WorldCollision k
  /\ List.length (graph_factors (coll_call a)) = (5 + k)%nat
  /\ count_kind PoseMatch (graph_factors (coll_call a)) = 1%nat
  /\ count_kind RestPose (graph_factors (coll_call a)) = 1%nat
  /\ count_kind JointVelLimit (graph_factors (coll_call a)) = 1%nat
  /\ count_kind JointLimit (graph_factors (coll_call a)) = 1%nat
  /\ count_kind SelfCollision (graph_factors (coll_call a)) = 1%nat
  /\ count_kind WorldCollision (graph_factors (coll_call a)) = k
  /\ count_kind Manipulability (graph_factors (coll_call a)) = 0%nat
  /\ world_coll_geoms (graph_factors (coll_call a)) =
     SolveIkWithColl.world_coll a.
Proof.
  intro k.
  cbn [solve_ik_with_coll_call graph_factors].
  pose proof (solve_ik_with_coll_factor_kinds a) as Hk.
  fold k in Hk.
  split; [exact Hk |].
  split.
  { rewrite <- (length_map kind_of), Hk.
    rewrite length_app, repeat_length. reflexivity. }
  repeat split;
    try (rewrite (count_kind_of_kinds _ _ _ Hk);
         rewrite filter_app; cbn [filter FactorKind_eqb];
         first [ rewrite filter_repeat_same
               | rewrite filter_repeat_other by discriminate ];
         rewrite ?length_app, ?repeat_length; reflexivity).
  unfold solve_ik_with_coll_factors.
  cbn [app].
  rewrite <- (world_coll_geoms_map
                (get_var_class (SolveIkWithColl.kin a)
                               (SolveIkWithColl.initial_pose a))
                0 (SolveIkWithColl.kin a) (SolveIkWithColl.robot_coll a)
                (1 # 10) (SolveIkWithColl.world_coll_weight a)
                (SolveIkWithColl.world_coll a)) at 2.
  reflexivity.
Qed.

(** C6: solve_ik always assembles the joint-limit, joint-velocity-limit,
    rest-pose and pose-match factors, once each, and the manipulability
    factor if and only if use_manipulability is set; it assembles no
    collision factor. *)
Theorem solve_ik_factor_list (a : SolveIk.args) :
  map kind_of (graph_factors (ik_call a)) =
    [JointLimit; JointVelLimit; RestPose; PoseMatch] ++
    (if SolveIk.use_manipulability a then [Manipulability] else [])
  /\ count_kind JointLimit (graph_factors (ik_call a)) = 1%nat
  /\ count_kind JointVelLimit (graph_factors (ik_call a)) = 1%nat
  /\ count_kind RestPose (graph_factors (ik_call a)) = 1%nat
  /\ count_kind PoseMatch (graph_factors (ik_call a)) = 1%nat
  /\ (In Manipulability (map kind_of (graph_factors (ik_call a))) <->
      SolveIk.use_manipulability a = true).
Proof.
  cbn [solve_ik_call graph_factors].
  pose proof (solve_ik_factor_kinds a) as Hk.
  split; [exact Hk |].
  repeat split;
    try (rewrite (count_kind_of_kinds _ _ _ Hk);
         destruct (SolveIk.use_manipulability a); reflexivity).
  - rewrite Hk. destruct (SolveIk.use_manipulability a); simpl.
    + reflexivity.
    + intros H. repeat (destruct H as [H | H]; try discriminate H).
      contradiction.
  - intros Hm. rewrite Hk, Hm. simpl. tauto.
Qed.

(** *** What the engine is handed *)

Lemma solve_ik_with_coll_starts_from_class_default
  (a : SolveIkWithColl.args RobotColl CollGeom) :
  let JointVar :=
    get_var_class (SolveIkWithColl.kin a) (SolveIkWithColl.initial_pose a) in
  joint_initial_values (coll_call a) = [ (MkVar JointVar 0, cls_default JointVar) ].
Proof. reflexivity. Qed.


(** C2, as the code has it: both entry points pass the gradient tolerance
    1e-5 and the parameter tolerance 1e-5 whatever the caller supplies;
    the maximum iteration count is the caller's max_iterations in solve_ik
    and 50 in solve_ik_with_coll. *)
Theorem termination_config_passed
  (a : SolveIk.args) (b : SolveIkWithColl.args RobotColl CollGeom) :
  termination (ik_call a) =
    {| gradient_tolerance := 1 # 100000;
       parameter_tolerance := 1 # 100000;
       max_iterations := SolveIk.max_iterations a |}
  /\ termination (coll_call b) =
    {| gradient_tolerance := 1 # 100000;
       parameter_tolerance := 1 # 100000;
       max_iterations := 50 |}.
Proof. split; reflexivity. Qed.

(** *** Runs and the collaborators' exceptions *)

Context {library : Library RobotColl CollGeom}.

Lemma first_raise_none (calls : list (LibCall RobotColl CollGeom)) :
  (forall c, In c calls -> raises c = None) -> first_raise calls = None.
Proof.
  induction calls as [| c rest IH]; intros Hall; simpl.
  - reflexivity.
  - rewrite (Hall c (or_introl eq_refl)).
    apply IH. intros c' Hc'. apply Hall. right. exact Hc'.
Qed.

Lemma first_raise_some
  (calls : list (LibCall RobotColl CollGeom)) (err : string) :
  first_raise calls = Some err ->
  exists pre c post,
    calls = pre ++ c :: post
    /\ Forall (fun c' => raises c' = None) pre
    /\ raises c = Some err.
Proof.
  induction calls as [| c rest IH]; simpl; intros H.
  - discriminate H.
  - destruct (raises c) as [e |] eqn:Hc.
    + injection H as ->.
      exists [], c, rest. repeat split; [constructor | exact Hc].
    + destruct (IH H) as [pre [c' [post [Heq [Hpre Hc']]]]].
      exists (c :: pre), c', post.
      split; [rewrite Heq; reflexivity |].
      split; [constructor; assumption | exact Hc'].
Qed.

Lemma first_raise_prefix
  (pre post : list (LibCall RobotColl CollGeom)) (err : string) :
  first_raise pre = Some err -> first_raise (pre ++ post) = Some err.
Proof.
  induction pre as [| c rest IH]; simpl; intros H.
  - discriminate H.
  - destruct (raises c); [exact H | apply IH, H].
Qed.

Lemma factory_call_in_flat_map
  (fs : list (Factor RobotColl CollGeom)) (f : Factor RobotColl CollGeom) :
  In f fs -> In (call_factory f) (flat_map factory_calls fs).
Proof.
  intros Hf. apply in_flat_map. exists f. split; [exact Hf |].
  destruct f; cbn [factory_calls In]; auto.
Qed.


(** C4: when ConstrainedSE3Var is None, solve_ik declares the joint
    variable alone, gives an initial value to no base-pose variable, and
    returns the SE(3) identity as base pose. *)
Theorem no_base_pose_without_var_type (a : SolveIk.args) :
  SolveIk.ConstrainedSE3Var a = None ->
  graph_vars (ik_call a) =
    [ JointV (MkVar (SolveIk.JointVar a) (SolveIk.joint_var_idx a)) ]
  /\ pose_vars (graph_vars (ik_call a)) = []
  /\ (forall v x, ~ In (PoseV v, x) (initial_vals (ik_call a)))
  /\ fst (solve_ik a) = SE3_identity.
Proof.
  intros HNone.
  unfold solve_ik, solve_ik_call, solve_ik_vars.
  cbn [graph_vars initial_vals fst].
  rewrite HNone. cbn.
  repeat split.
  intros v x [H | []]. discriminate H.
Qed.

(** C7: solve_ik reads the joint configuration from JointVar(0) and the
    base pose from ConstrainedSE3Var(0), whatever joint_var_idx and
    pose_var_idx are.  When joint_var_idx is not 0, every factor is
    attached to JointVar(joint_var_idx), which is the only joint variable
    declared and is not JointVar(0); when pose_var_idx is not 0, the base
    variable declared and used by the pose-match factor is
    ConstrainedSE3Var(pose_var_idx), not ConstrainedSE3Var(0). *)
Theorem solve_ik_reads_variable_zero (a : SolveIk.args) :
  let solution := graph_solve (ik_call a) in
  snd (solve_ik a) = solution_joint solution (MkVar (SolveIk.JointVar a) 0)
  /\ (forall C, SolveIk.ConstrainedSE3Var a = Some C ->
        fst (solve_ik a) = solution_pose solution (MkVar C 0))
  /\ (SolveIk.joint_var_idx a <> 0 ->
        (forall f, In f (graph_factors (ik_call a)) ->
           factor_joint_var f =
           MkVar (SolveIk.JointVar a) (SolveIk.joint_var_idx a))
        /\ joint_vars_of (graph_vars (ik_call a)) =
           [ MkVar (SolveIk.JointVar a) (SolveIk.joint_var_idx a) ]
        /\ MkVar (SolveIk.JointVar a) 0 <>
           MkVar (SolveIk.JointVar a) (SolveIk.joint_var_idx a))
  /\ (forall C p,
        SolveIk.ConstrainedSE3Var a = Some C ->
        SolveIk.pose_var_idx a = Some p ->
        p <> 0 ->
        pose_vars (graph_vars (ik_call a)) = [ MkVar C p ]
        /\ (forall f, In f (graph_factors (ik_call a)) ->
              kind_of f = PoseMatch -> factor_base_var f = Some (C, Some p))
        /\ MkVar C 0 <> MkVar C p).
Proof.
  intro solution.
  split; [reflexivity |].
  split.
  { intros C HC. unfold solve_ik. rewrite HC. reflexivity. }
  split.
  - intros Hidx.
    split; [| split].
    + intros f Hf.
      cbn [solve_ik_call graph_factors] in Hf.
      unfold solve_ik_factors in Hf.
      destruct (SolveIk.use_manipulability a); cbn [app In] in Hf;
        repeat (destruct Hf as [<- | Hf]; [reflexivity |]);
        contradiction.
    + unfold solve_ik_call, solve_ik_vars. cbn [graph_vars].
      destruct (SolveIk.ConstrainedSE3Var a);
        destruct (SolveIk.pose_var_idx a); reflexivity.
    + intros Heq. injection Heq as Heq. auto.
  - intros C p HC Hp Hne.
    split; [| split].
    + unfold solve_ik_call, solve_ik_vars. cbn [graph_vars].
      rewrite HC, Hp. reflexivity.
    + intros f Hf Hk.
      cbn [solve_ik_call graph_factors] in Hf.
      unfold solve_ik_factors in Hf.
      destruct (SolveIk.use_manipulability a); cbn [app In] in Hf;
        repeat (destruct Hf as [<- | Hf];
                [ first [ discriminate Hk
                        | cbn [factor_base_var]; rewrite HC, Hp; reflexivity ]
                |]);
        contradiction.
    + intros Heq. injection Heq as Heq. auto.
Qed.

(** C8: in both entry points the one joint-velocity-limit factor handed
    to the engine holds the caller's initial_pose as its previous
    configuration.  The reference is a constant array inside the factor,
    fixed when the call is assembled; the factor is attached to the joint
    variable alone. *)
Theorem vel_limit_reference_is_initial_pose
  (a : SolveIk.args) (b : SolveIkWithColl.args RobotColl CollGeom) :
  vel_limit_references (graph_factors (ik_call a)) = [ SolveIk.initial_pose a ]
  /\ count_kind JointVelLimit (graph_factors (ik_call a)) = 1%nat
  /\ vel_limit_references (graph_factors (coll_call b)) =
     [ SolveIkWithColl.initial_pose b ]
  /\ count_kind JointVelLimit (graph_factors (coll_call b)) = 1%nat.
Proof.
  split; [| split; [| split]].
  - cbn [solve_ik_call graph_factors]. unfold solve_ik_factors.
    destruct (SolveIk.use_manipulability a); reflexivity.
  - rewrite (count_kind_of_kinds _ _ _ (solve_ik_factor_kinds a)).
    destruct (SolveIk.use_manipulability a); reflexivity.
  - cbn [solve_ik_with_coll_call graph_factors].
    unfold solve_ik_with_coll_factors. cbn [app].
    unfold vel_limit_references. cbn [flat_map app].
    f_equal.
    induction (SolveIkWithColl.world_coll b) as [| c rest IH]; simpl.
    + reflexivity.
    + exact IH.
  - rewrite (count_kind_of_kinds _ _ _ (solve_ik_with_coll_factor_kinds b)).
    rewrite filter_app, filter_repeat_other by discriminate.
    reflexivity.
Qed.

(** C10: the solver_type argument of solve_ik ranges over three distinct
    backends, cholmod (sparse direct), conjugate_gradient (iterative) and
    dense_cholesky (dense direct); each can be selected, and the one
    selected is the linear_solver passed to the engine's solve. *)
Theorem linear_solver_is_solver_type :
  (forall a : SolveIk.args,
     linear_solver (ik_call a) = Some (SolveIk.solver_type a))
  /\ (forall s : LinearSolver,
        s = cholmod \/ s = conjugate_gradient \/ s = dense_cholesky)
  /\ cholmod <> conjugate_gradient
  /\ cholmod <> dense_cholesky
  /\ conjugate_gradient <> dense_cholesky
  /\ (forall (s : LinearSolver) (a : SolveIk.args),
        exists a' : SolveIk.args,
          linear_solver (ik_call a') = Some s).
Proof.
  split; [reflexivity |].
  split; [intros []; auto |].
  repeat split; try discriminate.
  intros s a.
  exists {| SolveIk.kin := SolveIk.kin a;
            SolveIk.target_pose := SolveIk.target_pose a;
            SolveIk.target_joint_indices := SolveIk.target_joint_indices a;
            SolveIk.initial_pose := SolveIk.initial_pose a;
            SolveIk.JointVar := SolveIk.JointVar a;
            SolveIk.ik_weight := SolveIk.ik_weight a;
            SolveIk.joint_var_idx := SolveIk.joint_var_idx a;
            SolveIk.rest_weight := SolveIk.rest_weight a;
            SolveIk.limit_weight := SolveIk.limit_weight a;
            SolveIk.joint_vel_weight := SolveIk.joint_vel_weight a;
            SolveIk.dt := SolveIk.dt a;
            SolveIk.use_manipulability := SolveIk.use_manipulability a;
            SolveIk.manipulability_weight := SolveIk.manipulability_weight a;
            SolveIk.solver_type := s;
            SolveIk.ConstrainedSE3Var := SolveIk.ConstrainedSE3Var a;
            SolveIk.pose_var_idx := SolveIk.pose_var_idx a;
            SolveIk.max_iterations := SolveIk.max_iterations a |}.
  reflexivity.
Qed.

End Properties.

(** ** Factors of weight zero *)

Section ZeroWeight.

Context {RobotColl CollGeom : Type}.
Context {services : Services RobotColl CollGeom}.
Variables prec emax : Z.

Local Abbreviation finite_entries :=
  (Forall (fun x : spec_float => is_finite x = true)).
Local Abbreviation zero_entries :=
  (Forall (fun x : spec_float => is_zero x = true)).

Lemma Q2F_zero (w : Q) : w == 0 -> Q2F prec emax w = S754_zero false.
Proof.
  unfold Qeq. cbn [Qnum Qden]. rewrite Z.mul_1_r, Z.mul_0_l.
  intros Hw. unfold Q2F. rewrite Hw. reflexivity.
Qed.

Lemma zero_times_finite (x : spec_float) :
  is_finite x = true ->
  is_zero (SFmul prec emax (S754_zero false) x) = true.
Proof. destruct x; intros H; try discriminate H; reflexivity. Qed.

Lemma zero_times_not_finite (x : spec_float) :
  is_finite x = false -> SFmul prec emax (S754_zero false) x = S754_nan.
Proof. destruct x; intros H; try discriminate H; reflexivity. Qed.

Lemma weight_scaled_zero (w : Array) :
  all_zero w ->
  forall r, finite_entries r -> zero_entries (weight_scaled prec emax w r).
Proof.
  unfold all_zero, weight_scaled.
  induction 1 as [| x w Hx Hw IH]; intros r Hr.
  - constructor.
  - destruct Hr as [| y r Hy Hr]; simpl.
    + constructor.
    + constructor.
      * rewrite (Q2F_zero x Hx). apply zero_times_finite, Hy.
      * apply IH, Hr.
Qed.

Lemma scalar_scaled_zero (w : Q) (r : FArray) :
  w == 0 -> finite_entries r -> zero_entries (scalar_scaled prec emax w r).
Proof.
  intros Hw. unfold scalar_scaled. rewrite (Q2F_zero w Hw).
  induction 1 as [| y r Hy Hr IH]; simpl; constructor.
  - apply zero_times_finite, Hy.
  - exact IH.
Qed.

Lemma pose_scaled_zero {A : Type} (w : Array) (pe : A -> FArray)
  (targets : list A) :
  all_zero w ->
  finite_entries (flat_map pe targets) ->
  zero_entries
    (flat_map (fun t => weight_scaled prec emax w (pe t)) targets).
Proof.
  intros Hw.
  induction targets as [| t targets IH]; simpl; intros Hfin.
  - constructor.
  - apply Forall_app in Hfin. destruct Hfin as [Ht Hrest].
    apply Forall_app. split.
    + apply weight_scaled_zero; assumption.
    + apply IH, Hrest.
Qed.

Lemma sum_squares_zero (r : FArray) :
  zero_entries r -> sum_squares prec emax r = S754_zero false.
Proof.
  induction 1 as [| x r Hx Hr IH]; simpl.
  - reflexivity.
  - rewrite IH. destruct x as [s | | |]; try discriminate Hx.
    destruct s; reflexivity.
Qed.

Lemma zero_weight_residual
  (f : Factor RobotColl CollGeom) (q base : FArray) :
  zero_weight f ->
  finite_entries (unweighted_residual prec emax f q base) ->
  zero_entries (factor_residual prec emax f q base).
Proof.
  destruct f; cbn [zero_weight factor_residual]; intros Hw Hfin.
  - apply weight_scaled_zero; assumption.
  - apply weight_scaled_zero; assumption.
  - apply weight_scaled_zero; assumption.
  - cbn [unweighted_residual] in Hfin.
    apply (pose_scaled_zero ik_weight _ _ Hw Hfin).
  - apply scalar_scaled_zero; assumption.
  - apply scalar_scaled_zero; assumption.
  - apply scalar_scaled_zero; assumption.
Qed.

Lemma all_zero_replicate (w : Q) (n : nat) :
  w == 0 -> all_zero (replicate w n).
Proof.
  intros Hw. unfold all_zero, replicate.
  induction n as [| n IH]; simpl; constructor; assumption.
Qed.

(** With a time step of zero the speed is infinite or NaN, and so is the
    velocity error, whatever the configuration and the bound. *)
Lemma vel_excess_dt_zero (prev bound q : spec_float) :
  is_finite (vel_excess prec emax (S754_zero false) prev bound q) = false.
Proof.
  unfold vel_excess.
  destruct (SFsub prec emax q prev) as [s | s | | s m e];
    cbn [SFdiv SFabs];
    destruct bound as [sb | sb | | sb mb eb];
    try destruct sb; reflexivity.
Qed.

Lemma vel_residual_dt_zero
  (kin : JaxKinTree) (dt : Q) (w prev : Array) (q : FArray) :
  dt == 0 -> all_zero w ->
  Forall (fun x => x = S754_nan)
    (weight_scaled prec emax w (limit_vel_errors prec emax kin dt prev q)).
Proof.
  intros Hdt Hw.
  unfold limit_vel_errors. rewrite (Q2F_zero dt Hdt).
  generalize (combine (combine prev (joint_vel_limit kin)) q) as l.
  unfold weight_scaled.
  induction Hw as [| x w Hx Hw IH]; intros l.
  - constructor.
  - destruct l as [| b l]; simpl; constructor.
    + rewrite (Q2F_zero x Hx).
      apply zero_times_not_finite, vel_excess_dt_zero.
    + apply IH.
Qed.

Lemma solve_ik_vel_factor (a : SolveIk.args) :
  filter (fun f => FactorKind_eqb (kind_of f) JointVelLimit)
         (@solve_ik_factors RobotColl CollGeom a)
  = [ limit_vel_cost_factor
        (SolveIk.JointVar a) (SolveIk.joint_var_idx a) (SolveIk.kin a)
        (SolveIk.dt a)
        (replicate (SolveIk.joint_vel_weight a)
                   (num_actuated_joints (SolveIk.kin a)))
        (SolveIk.initial_pose a) ].
Proof.
  unfold solve_ik_factors.
  destruct (SolveIk.use_manipulability a); reflexivity.
Qed.


(** For every call of solve_ik with [dt = 0.0] and joint_vel_weight 0.0,
    every entry of the residual of its joint-velocity-limit factor is
    NaN, at every configuration. *)
Lemma solve_ik_vel_residual_nan_at_dt_zero
  (a : SolveIk.args) (q base : FArray) :
  SolveIk.dt a == 0 -> SolveIk.joint_vel_weight a == 0 ->
  Forall (fun f : Factor RobotColl CollGeom =>
            Forall (fun x => x = S754_nan)
                   (factor_residual prec emax f q base))
         (filter (fun f => FactorKind_eqb (kind_of f) JointVelLimit)
                 (solve_ik_factors a)).
Proof.
  intros Hdt Hw. rewrite solve_ik_vel_factor.
  constructor; [| constructor].
  cbn [factor_residual unweighted_residual].
  apply vel_residual_dt_zero; [exact Hdt |].
  apply all_zero_replicate, Hw.
Qed.

End ZeroWeight.

(** ** The properties at the sample calls *)

(** The sample call of solve_ik_with_coll starts from its initial_pose,
    [Sample.q0]. *)
Example solve_ik_with_coll_sample_start :
  joint_initial_values
    (solve_ik_with_coll_call RobotFactors.get_var_class Sample.coll_plain)
  = [ (MkVar (MkVarClass "JointVar" Sample.q0) 0, Sample.q0) ].
Proof. reflexivity. Qed.

(** No call of either entry point makes the engine receive a gradient or
    parameter tolerance of 1e-3, and no call of solve_ik_with_coll makes
    it receive a maximum of 100 iterations: the sample calls, which differ
    in what the caller supplies, are handed the same tolerances. *)
Lemma termination_not_caller_configurable :
  (~ exists a : SolveIk.args,
       gradient_tolerance
         (termination (@solve_ik_call Sample.RobotColl Sample.CollGeom a))
       = 1 # 1000)
  /\ (~ exists a : SolveIk.args,
       parameter_tolerance
         (termination (@solve_ik_call Sample.RobotColl Sample.CollGeom a))
       = 1 # 1000)
  /\ (~ exists a : SolveIkWithColl.args Sample.RobotColl Sample.CollGeom,
       gradient_tolerance
         (termination (solve_ik_with_coll_call Sample.get_var_class a))
       = 1 # 1000)
  /\ (~ exists a : SolveIkWithColl.args Sample.RobotColl Sample.CollGeom,
       max_iterations
         (termination (solve_ik_with_coll_call Sample.get_var_class a))
       = 100)
  /\ gradient_tolerance
       (termination
          (@solve_ik_call Sample.RobotColl Sample.CollGeom Sample.ik_plain))
     = gradient_tolerance
       (termination
          (@solve_ik_call Sample.RobotColl Sample.CollGeom Sample.ik_shifted)).
Proof.
  repeat split; try (intros [a H]; cbn in H; discriminate H).
Qed.


(** With the same collaborators the call with mismatched lengths raises
    the factory's shape error, at the joint-velocity-limit factory. *)
Example shape_mismatch_raises_in_the_factory :
  solve_ik_run (engine := Sample.engine) (library := Sample.library)
    Sample.ik_malformed = Raises Sample.shape_error
  /\ raises (Library := Sample.library)
       (call_factory
          (limit_vel_cost_factor Sample.JointVar 0 Sample.kin (1 # 100)
             [0; 0]%Q [0; 0; 0]%Q))
     = Some Sample.shape_error.
Proof. split; reflexivity. Qed.


(** The plain sample call supplies no ConstrainedSE3Var: one variable is
    declared and the base pose returned is the identity. *)
Lemma no_base_pose_witness :
  SolveIk.ConstrainedSE3Var Sample.ik_plain = None
  /\ graph_vars
       (@solve_ik_call Sample.RobotColl Sample.CollGeom Sample.ik_plain)
     = [ JointV (MkVar Sample.JointVar 0) ]
  /\ fst (solve_ik (engine := Sample.engine) Sample.ik_plain) = SE3_identity.
Proof.
  split; [reflexivity |].
  destruct (@no_base_pose_without_var_type
              Sample.RobotColl Sample.CollGeom Sample.engine
              Sample.ik_plain eq_refl) as [Hvars [_ [_ Hbase]]].
  split; [exact Hvars | exact Hbase].
Defined.

(** The shifted sample call attaches its factors to JointVar(3) and
    ConstrainedSE3Var(2) and reads JointVar(0) and
    ConstrainedSE3Var(0). *)
Lemma reads_variable_zero_witness :
  SolveIk.joint_var_idx Sample.ik_shifted <> 0
  /\ snd (solve_ik (engine := Sample.engine) Sample.ik_shifted) =
     solution_joint (Engine := Sample.engine)
       (graph_solve (solve_ik_call Sample.ik_shifted))
       (MkVar Sample.JointVar 0)
  /\ joint_vars_of
       (graph_vars
          (@solve_ik_call Sample.RobotColl Sample.CollGeom Sample.ik_shifted))
     = [ MkVar Sample.JointVar 3 ]
  /\ pose_vars
       (graph_vars
          (@solve_ik_call Sample.RobotColl Sample.CollGeom Sample.ik_shifted))
     = [ MkVar Sample.ConstrainedSE3Var 2 ].
Proof.
  assert (Hj : SolveIk.joint_var_idx Sample.ik_shifted <> 0)
    by (cbn; discriminate).
  assert (Hp : 2 <> 0) by discriminate.
  destruct (@solve_ik_reads_variable_zero
              Sample.RobotColl Sample.CollGeom Sample.engine
              Sample.ik_shifted) as [Hread [_ [Hjoint Hpose]]].
  destruct (Hjoint Hj) as [_ [Hvars _]].
  destruct (Hpose Sample.ConstrainedSE3Var 2 eq_refl eq_refl Hp)
    as [Hpvars _].
  split; [exact Hj |].
  split; [exact Hread |].
  split; [exact Hvars | exact Hpvars].
Defined.


(** A rest-pose factor of weight zero at a configuration with an infinite
    entry: the entry's residual is NaN. *)
Example zero_weight_rest_residual_at_infinity :
  factor_residual (services := Sample.services) 24 128
    (@rest_cost_factor Sample.RobotColl Sample.CollGeom
       Sample.JointVar 0 [0; 0]%Q)
    [ S754_infinity false; Q2F 24 128 (1 # 2) ] []
  = [ S754_nan; S754_zero false ].
Proof. vm_compute. reflexivity. Qed.


(** With a positive weight the same factor has a residual that is not
    zero: the zero above comes from the weight. *)
Example vel_limit_residual_positive_weight :
  forallb (fun x => is_finite x && negb (is_zero x))
    (factor_residual (services := Sample.services) 24 128
       (@limit_vel_cost_factor Sample.RobotColl Sample.CollGeom
          Sample.JointVar 0 Sample.kin (1 # 100) [1; 2]%Q Sample.q0)
       (map (Q2F 24 128) [50; -50]%Q) [])
  = true.
Proof. vm_compute. reflexivity. Qed.

(** With the engine that returns its initial assignment, the shifted
    sample call holds the configuration under JointVar(3); reading
    JointVar(0), as solve_ik does, finds no entry. *)
Example shifted_call_reads_absent_variable :
  Sample.lookup_joint
    (initial_vals
       (@solve_ik_call Sample.RobotColl Sample.CollGeom Sample.ik_shifted))
    (MkVar Sample.JointVar 3) = Sample.q0
  /\ snd (solve_ik (engine := Sample.engine) Sample.ik_shifted) = [].
Proof. split; reflexivity. Qed.

(** ** Further properties of the assembly *)

Section Assembly.

Context {RobotColl CollGeom : Type}.
Context {engine : Engine RobotColl CollGeom}.
Variable get_var_class : JaxKinTree -> Array -> VarClass Array.

Local Abbreviation ik_call := (@solve_ik_call RobotColl CollGeom).
Local Abbreviation coll_factors :=
  (@solve_ik_with_coll_factors RobotColl CollGeom get_var_class).
Local Abbreviation coll_call :=
  (@solve_ik_with_coll_call RobotColl CollGeom get_var_class).

Lemma replicate_uniform (x : Q) (n : nat) :
  List.length (replicate x n) = n /\ forall y, In y (replicate x n) -> y = x.
Proof.
  unfold replicate. split.
  - apply repeat_length.
  - intros y Hy. apply (repeat_spec n x y Hy).
Qed.

Lemma Forall_world_coll_factors
  (P : Factor RobotColl CollGeom -> Prop)
  (mk : CollGeom -> Factor RobotColl CollGeom) (obstacles : list CollGeom) :
  (forall c, P (mk c)) -> Forall P (map mk obstacles).
Proof.
  intros HP. apply Forall_forall. intros f Hf.
  apply in_map_iff in Hf. destruct Hf as [c [<- _]]. apply HP.
Qed.

(** X1: in solve_ik every per-joint weight vector handed to a factor has
    one entry per actuated joint, and every entry is the scalar the
    caller gave for that factor: limit_weight for the joint-limit factor,
    joint_vel_weight for the joint-velocity-limit factor, rest_weight for
    the rest-pose factor. *)
Theorem solve_ik_per_joint_weights (a : SolveIk.args) :
  Forall
    (fun f =>
       forall w, per_joint_weights f = Some w ->
         List.length w = num_actuated_joints (SolveIk.kin a)
         /\ forall x, In x w ->
              (kind_of f = JointLimit /\ x = SolveIk.limit_weight a)
              \/ (kind_of f = JointVelLimit /\ x = SolveIk.joint_vel_weight a)
              \/ (kind_of f = RestPose /\ x = SolveIk.rest_weight a))
    (graph_factors (ik_call a)).
Proof.
  cbn [solve_ik_call graph_factors]. unfold solve_ik_factors.
  destruct (SolveIk.use_manipulability a); cbn [app];
    repeat (apply Forall_cons || apply Forall_nil);
    intros w Hw; cbn [per_joint_weights] in Hw;
    try discriminate Hw; injection Hw as <-;
    (split; [apply replicate_uniform |]);
    intros x Hx; apply replicate_uniform in Hx; cbn [kind_of]; auto.
Qed.

(** X2: in solve_ik_with_coll the per-joint weight vectors have one entry
    per actuated joint; the rest-pose factor carries rest_weight, and the
    joint-limit and the joint-velocity-limit factor both carry
    limit_weight; the pose-match weight is pos_weight three times followed
    by rot_weight three times. *)
Theorem solve_ik_with_coll_weights
  (a : SolveIkWithColl.args RobotColl CollGeom) :
  Forall
    (fun f =>
       forall w, per_joint_weights f = Some w ->
         List.length w = num_actuated_joints (SolveIkWithColl.kin a)
         /\ forall x, In x w ->
              (kind_of f = JointLimit /\ x = SolveIkWithColl.limit_weight a)
              \/ (kind_of f = JointVelLimit
                  /\ x = SolveIkWithColl.limit_weight a)
              \/ (kind_of f = RestPose /\ x = SolveIkWithColl.rest_weight a))
    (graph_factors (coll_call a))
  /\ ik_weights_of (graph_factors (coll_call a)) =
     [ [ SolveIkWithColl.pos_weight a; SolveIkWithColl.pos_weight a;
         SolveIkWithColl.pos_weight a; SolveIkWithColl.rot_weight a;
         SolveIkWithColl.rot_weight a; SolveIkWithColl.rot_weight a ] ].
Proof.
  cbn [solve_ik_with_coll_call graph_factors].
  unfold solve_ik_with_coll_factors. cbn [app].
  split.
  - repeat apply Forall_cons;
      try (intros w Hw; cbn [per_joint_weights] in Hw;
           try discriminate Hw; injection Hw as <-;
           (split; [apply replicate_uniform |]);
           intros x Hx; apply replicate_uniform in Hx; cbn [kind_of]; auto).
    apply Forall_world_coll_factors.
    intros c w Hw. discriminate Hw.
  - unfold ik_weights_of. cbn [flat_map app replicate repeat].
    f_equal.
    induction (SolveIkWithColl.world_coll a) as [| c rest IH]; simpl.
    + reflexivity.
    + exact IH.
Qed.

(** In solve_ik_with_coll the joint-velocity-limit factor has the time
    step 0.1 and the very weight vector of the joint-limit factor: the
    entry point has no velocity weight of its own. *)
Lemma solve_ik_with_coll_vel_limit_shares_limit_weight
  (a : SolveIkWithColl.args RobotColl CollGeom) :
  exists w : Array,
    vel_limit_params (graph_factors (coll_call a)) = [ (1 # 10, w) ]
    /\ joint_limit_weights (graph_factors (coll_call a)) = [ w ]
    /\ w = replicate (SolveIkWithColl.limit_weight a)
                     (num_actuated_joints (SolveIkWithColl.kin a)).
Proof.
  eexists.
  cbn [solve_ik_with_coll_call graph_factors].
  unfold solve_ik_with_coll_factors, vel_limit_params, joint_limit_weights.
  cbn [app flat_map].
  assert (Hv : forall (l : list CollGeom) JV i k rc m w,
             flat_map (fun f : Factor RobotColl CollGeom =>
                         match f with
                         | limit_vel_cost_factor _ _ _ dt w0 _ => [ (dt, w0) ]
                         | _ => []
                         end)
                      (map (fun coll => world_coll_factor JV i k rc coll m w) l)
             = []).
  { induction l as [| c l IH]; intros; simpl; [reflexivity | apply IH]. }
  assert (Hl : forall (l : list CollGeom) JV i k rc m w,
             flat_map (fun f : Factor RobotColl CollGeom =>
                         match f with
                         | limit_cost_factor _ _ _ w0 => [ w0 ]
                         | _ => []
                         end)
                      (map (fun coll => world_coll_factor JV i k rc coll m w) l)
             = []).
  { induction l as [| c l IH]; intros; simpl; [reflexivity | apply IH]. }
  rewrite Hv, Hl.
  repeat split.
Qed.

(** X3: in both entry points every declared variable is given exactly one
    initial value and nothing else is: the variables of the initial
    assignment are the declared variables, in the same order. *)
Theorem initial_values_cover_declared_variables
  (a : SolveIk.args) (b : SolveIkWithColl.args RobotColl CollGeom) :
  map fst (initial_vals (ik_call a)) = graph_vars (ik_call a)
  /\ map fst (initial_vals (coll_call b)) = graph_vars (coll_call b).
Proof.
  split.
  - unfold solve_ik_call, solve_ik_vars. cbn [initial_vals graph_vars].
    destruct (SolveIk.ConstrainedSE3Var a);
      destruct (SolveIk.pose_var_idx a); reflexivity.
  - reflexivity.
Qed.

(** X4: when solve_ik is given a ConstrainedSE3Var and a pose_var_idx, it
    declares the base-pose variable after the joint variable and starts
    it from the default value of its class; the caller supplies no
    initial base pose. *)
Theorem base_pose_starts_from_class_default
  (a : SolveIk.args) (C : VarClass SE3) (p : Z) :
  SolveIk.ConstrainedSE3Var a = Some C ->
  SolveIk.pose_var_idx a = Some p ->
  graph_vars (ik_call a) =
    [ JointV (MkVar (SolveIk.JointVar a) (SolveIk.joint_var_idx a));
      PoseV (MkVar C p) ]
  /\ initial_vals (ik_call a) =
    [ (JointV (MkVar (SolveIk.JointVar a) (SolveIk.joint_var_idx a)),
       ArrayVal (SolveIk.initial_pose a));
      (PoseV (MkVar C p), SE3Val (cls_default C)) ].
Proof.
  intros HC Hp.
  unfold solve_ik_call, solve_ik_vars. cbn [initial_vals graph_vars].
  rewrite HC, Hp. split; reflexivity.
Qed.

(** X5: when solve_ik is given a ConstrainedSE3Var but pose_var_idx is
    None, no base-pose variable is declared or initialised, yet the
    pose-match factor is still built with the base variable type and the
    base pose returned is read from ConstrainedSE3Var(0). *)
Theorem base_pose_read_without_declared_variable
  (a : SolveIk.args) (C : VarClass SE3) :
  SolveIk.ConstrainedSE3Var a = Some C ->
  SolveIk.pose_var_idx a = None ->
  pose_vars (graph_vars (ik_call a)) = []
  /\ graph_vars (ik_call a) =
     [ JointV (MkVar (SolveIk.JointVar a) (SolveIk.joint_var_idx a)) ]
  /\ initial_vals (ik_call a) =
     [ (JointV (MkVar (SolveIk.JointVar a) (SolveIk.joint_var_idx a)),
        ArrayVal (SolveIk.initial_pose a)) ]
  /\ (forall v x, ~ In (PoseV v, x) (initial_vals (ik_call a)))
  /\ map factor_base_var
       (filter (fun f => FactorKind_eqb (kind_of f) PoseMatch)
               (graph_factors (ik_call a)))
     = [ Some (C, None) ]
  /\ fst (solve_ik a) =
     solution_pose (graph_solve (ik_call a)) (MkVar C 0).
Proof.
  intros HC Hp.
  unfold solve_ik, solve_ik_call, solve_ik_vars, solve_ik_factors.
  cbn [graph_vars graph_factors initial_vals fst snd].
  rewrite HC, Hp.
  split; [reflexivity |].
  split; [reflexivity |].
  split; [reflexivity |].
  split; [intros v x [H | []]; discriminate H |].
  split; [| reflexivity].
  destruct (SolveIk.use_manipulability a); reflexivity.
Qed.

(** X6: the variable solve_ik reads the joints from, JointVar(0), is
    among the variables it declares exactly when joint_var_idx is 0. *)
Theorem joint_variable_read_is_declared_iff (a : SolveIk.args) :
  In (JointV (MkVar (SolveIk.JointVar a) 0)) (graph_vars (ik_call a))
  <-> SolveIk.joint_var_idx a = 0.
Proof.
  unfold solve_ik_call, solve_ik_vars. cbn [graph_vars].
  split.
  - intros H.
    destruct (SolveIk.ConstrainedSE3Var a);
      destruct (SolveIk.pose_var_idx a); cbn [app In fst] in H;
      repeat (destruct H as [H | H];
              [ first [ injection H as H; exact H
                      | discriminate H ] |]);
      contradiction.
  - intros ->.
    destruct (SolveIk.ConstrainedSE3Var a);
      destruct (SolveIk.pose_var_idx a); cbn; auto.
Qed.

(** X7: with a ConstrainedSE3Var supplied, the variable solve_ik reads the
    base pose from, ConstrainedSE3Var(0), is among the variables it
    declares exactly when pose_var_idx is 0. *)
Theorem pose_variable_read_is_declared_iff
  (a : SolveIk.args) (C : VarClass SE3) :
  SolveIk.ConstrainedSE3Var a = Some C ->
  (In (PoseV (MkVar C 0)) (graph_vars (ik_call a))
   <-> SolveIk.pose_var_idx a = Some 0).
Proof.
  intros HC.
  unfold solve_ik_call, solve_ik_vars. cbn [graph_vars].
  rewrite HC.
  destruct (SolveIk.pose_var_idx a) as [p |]; cbn [app In fst].
  - split.
    + intros [H | [H | []]]; [discriminate H |].
      injection H as H. rewrite H. reflexivity.
    + intros H. injection H as ->. auto.
  - split.
    + intros [H | []]. discriminate H.
    + intros H. discriminate H.
Qed.

(** X8: solve_ik_with_coll declares one variable, the joint variable of
    index 0 of the class built by get_var_class, attaches every factor,
    the world-collision factors included, to it with no base-pose
    variable, and returns the value the solution holds for that same
    variable. *)
Theorem solve_ik_with_coll_single_variable
  (a : SolveIkWithColl.args RobotColl CollGeom) :
  let v := MkVar (get_var_class (SolveIkWithColl.kin a)
                                (SolveIkWithColl.initial_pose a)) 0 in
  graph_vars (coll_call a) = [ JointV v ]
  /\ Forall (fun f => factor_joint_var f = v /\ factor_base_var f = None)
            (graph_factors (coll_call a))
  /\ solve_ik_with_coll get_var_class a =
     solution_joint (graph_solve (coll_call a)) v.
Proof.
  intro v.
  split; [reflexivity |].
  split; [| reflexivity].
  cbn [solve_ik_with_coll_call graph_factors].
  unfold solve_ik_with_coll_factors. cbn [app].
  repeat apply Forall_cons; try (split; reflexivity).
  apply Forall_world_coll_factors. intros c. split; reflexivity.
Qed.

(** X9: when use_manipulability is off, manipulability_weight is
    ignored: changing it changes neither the problem handed to the
    engine nor the result. *)
Theorem manipulability_weight_ignored_when_off (a : SolveIk.args) (w : Q) :
  SolveIk.use_manipulability a = false ->
  ik_call (with_manipulability_weight w a) = ik_call a
  /\ solve_ik (with_manipulability_weight w a) = solve_ik a.
Proof.
  intros Hoff.
  assert (Hcall : ik_call (with_manipulability_weight w a) = ik_call a).
  { unfold solve_ik_call, solve_ik_factors, solve_ik_vars.
    cbn [with_manipulability_weight
           SolveIk.kin SolveIk.target_pose SolveIk.target_joint_indices
           SolveIk.initial_pose SolveIk.JointVar SolveIk.ik_weight
           SolveIk.joint_var_idx SolveIk.rest_weight SolveIk.limit_weight
           SolveIk.joint_vel_weight SolveIk.dt SolveIk.use_manipulability
           SolveIk.manipulability_weight SolveIk.solver_type
           SolveIk.ConstrainedSE3Var SolveIk.pose_var_idx
           SolveIk.max_iterations].
    rewrite Hoff. reflexivity. }
  split; [exact Hcall |].
  unfold solve_ik. rewrite Hcall. reflexivity.
Qed.

(** X10: in solve_ik_with_coll the self-collision factor has the margin
    0.05 and self_coll_weight, every world-collision factor has the
    margin 0.1 and world_coll_weight, and all of them are built on the
    caller's robot_coll; no other factor takes collision geometry. *)
Theorem solve_ik_with_coll_collision_params
  (a : SolveIkWithColl.args RobotColl CollGeom) :
  Forall
    (fun f =>
       collision_params f =
       match kind_of f with
       | SelfCollision =>
           Some (SolveIkWithColl.robot_coll a, 5 # 100,
                 SolveIkWithColl.self_coll_weight a)
       | WorldCollision =>
           Some (SolveIkWithColl.robot_coll a, 1 # 10,
                 SolveIkWithColl.world_coll_weight a)
       | _ => None
       end)
    (graph_factors (coll_call a)).
Proof.
  cbn [solve_ik_with_coll_call graph_factors].
  unfold solve_ik_with_coll_factors. cbn [app].
  repeat apply Forall_cons; try reflexivity.
  apply Forall_world_coll_factors. intros c. reflexivity.
Qed.

(** X11: the first five factors of solve_ik_with_coll do not depend on
    the obstacles, and obstacles appended to world_coll append their
    world-collision factors at the end of the list, leaving the rest
    unchanged. *)
Theorem solve_ik_with_coll_obstacles_append
  (a : SolveIkWithColl.args RobotColl CollGeom) (l1 l2 : list CollGeom) :
  firstn 5 (coll_factors a) = coll_factors (with_world_coll [] a)
  /\ coll_factors (with_world_coll (l1 ++ l2) a) =
     coll_factors (with_world_coll l1 a) ++
     skipn 5 (coll_factors (with_world_coll l2 a)).
Proof.
  unfold solve_ik_with_coll_factors.
  cbn [with_world_coll
         SolveIkWithColl.kin SolveIkWithColl.target_joint_indices
         SolveIkWithColl.target_poses SolveIkWithColl.robot_coll
         SolveIkWithColl.world_coll SolveIkWithColl.initial_pose
         SolveIkWithColl.pos_weight SolveIkWithColl.rot_weight
         SolveIkWithColl.rest_weight SolveIkWithColl.limit_weight
         SolveIkWithColl.self_coll_weight SolveIkWithColl.world_coll_weight
         app map firstn skipn].
  split; [reflexivity |].
  rewrite map_app. reflexivity.
Qed.

(** X12: solve_ik assembles no self-collision and no world-collision
    factor, whatever its arguments. *)
Theorem solve_ik_has_no_collision_factor (a : SolveIk.args) :
  count_kind SelfCollision (graph_factors (ik_call a)) = 0%nat
  /\ count_kind WorldCollision (graph_factors (ik_call a)) = 0%nat
  /\ Forall (fun f => collision_params f = None) (graph_factors (ik_call a)).
Proof.
  cbn [solve_ik_call graph_factors]. unfold solve_ik_factors.
  destruct (SolveIk.use_manipulability a); cbn [app];
    (split; [reflexivity | split; [reflexivity |]]);
    repeat (apply Forall_cons || apply Forall_nil); reflexivity.
Qed.

End Assembly.

(** ** The further properties at the sample calls *)

(** The shifted sample call declares ConstrainedSE3Var(2) and starts it
    from the class default, the identity. *)
Lemma base_pose_default_witness :
  SolveIk.ConstrainedSE3Var Sample.ik_shifted = Some Sample.ConstrainedSE3Var
  /\ SolveIk.pose_var_idx Sample.ik_shifted = Some 2
  /\ initial_vals
       (@solve_ik_call Sample.RobotColl Sample.CollGeom Sample.ik_shifted)
     = [ (JointV (MkVar Sample.JointVar 3), ArrayVal Sample.q0);
         (PoseV (MkVar Sample.ConstrainedSE3Var 2), SE3Val SE3_identity) ].
Proof.
  split; [reflexivity |].
  split; [reflexivity |].
  exact (proj2 (@base_pose_starts_from_class_default
                  Sample.RobotColl Sample.CollGeom Sample.ik_shifted
                  Sample.ConstrainedSE3Var 2 eq_refl eq_refl)).
Defined.

(** The floating-base call with [pose_var_idx=None] declares the joint
    variable alone and still reads ConstrainedSE3Var(0). *)
Lemma base_pose_undeclared_witness :
  SolveIk.ConstrainedSE3Var SampleEdge.ik_no_pose_idx
  = Some Sample.ConstrainedSE3Var
  /\ SolveIk.pose_var_idx SampleEdge.ik_no_pose_idx = None
  /\ graph_vars
       (@solve_ik_call Sample.RobotColl Sample.CollGeom
          SampleEdge.ik_no_pose_idx)
     = [ JointV (MkVar Sample.JointVar 0) ]
  /\ initial_vals
       (@solve_ik_call Sample.RobotColl Sample.CollGeom
          SampleEdge.ik_no_pose_idx)
     = [ (JointV (MkVar Sample.JointVar 0), ArrayVal Sample.q0) ]
  /\ fst (solve_ik (engine := Sample.engine) SampleEdge.ik_no_pose_idx) =
     solution_pose (Engine := Sample.engine)
       (graph_solve (solve_ik_call SampleEdge.ik_no_pose_idx))
       (MkVar Sample.ConstrainedSE3Var 0).
Proof.
  split; [reflexivity |].
  split; [reflexivity |].
  destruct (@base_pose_read_without_declared_variable
              Sample.RobotColl Sample.CollGeom Sample.engine
              SampleEdge.ik_no_pose_idx Sample.ConstrainedSE3Var
              eq_refl eq_refl) as [_ [Hvars [Hinit [_ [_ Hread]]]]].
  split; [exact Hvars |].
  split; [exact Hinit | exact Hread].
Defined.

(** The shifted sample call has [pose_var_idx=2]: ConstrainedSE3Var(0) is
    not among its variables. *)
Lemma pose_variable_read_witness :
  SolveIk.ConstrainedSE3Var Sample.ik_shifted = Some Sample.ConstrainedSE3Var
  /\ ~ In (PoseV (MkVar Sample.ConstrainedSE3Var 0))
          (graph_vars
             (@solve_ik_call Sample.RobotColl Sample.CollGeom
                Sample.ik_shifted)).
Proof.
  split; [reflexivity |].
  intros Hin.
  apply (@pose_variable_read_is_declared_iff
           Sample.RobotColl Sample.CollGeom Sample.ik_shifted
           Sample.ConstrainedSE3Var eq_refl) in Hin.
  discriminate Hin.
Defined.

(** The plain sample call leaves use_manipulability off: a
    manipulability_weight of 7 gives the same engine call. *)
Lemma manipulability_weight_ignored_witness :
  SolveIk.use_manipulability Sample.ik_plain = false
  /\ @solve_ik_call Sample.RobotColl Sample.CollGeom
       (with_manipulability_weight 7 Sample.ik_plain)
     = solve_ik_call Sample.ik_plain.
Proof.
  split; [reflexivity |].
  exact (proj1 (@manipulability_weight_ignored_when_off
                  Sample.RobotColl Sample.CollGeom Sample.engine
                  Sample.ik_plain 7 eq_refl)).
Defined.

(** With use_manipulability on, the weight is not ignored. *)
Example manipulability_weight_used_when_on :
  @solve_ik_call Sample.RobotColl Sample.CollGeom
    (with_manipulability_weight 7 Sample.ik_shifted)
  <> solve_ik_call Sample.ik_shifted.
Proof. intros H. discriminate H. Qed.
